(** * stat-server: a shallow embedding of [main.cpp]

    The development follows the source file top-down:
    - machine arithmetic ([uint32_t], [float], [double]) and the [for] loop;
    - [EventStatistic] (histogram, [AddData], [Calc], [GetReport],
      [GetFullReport]);
    - [Statistic] (the [std::map] registry);
    - [MainHandler] (the record parser) and [UDPHandler].

    Threads and the [recursive_mutex] are not modelled: every operation of
    [Statistic] is the sequential function that runs inside its critical
    section. *)

From Stdlib Require Import ZArith List Lia Bool String Ascii.
From Stdlib Require Import Floats.SpecFloat.
From Stdlib Require Import DecimalString.
Import ListNotations.

Open Scope Z_scope.

(* ================================================================= *)
(** ** Machine arithmetic *)

(** [uint32_t]: a [Z] in [0, 2^32), every arithmetic result wrapped. *)
Definition u32 (z : Z) : Z := z mod 2 ^ 32.

(** [constexpr uint32_t microsecondsInSecond = 1000000;] *)
Definition microsecondsInSecond : Z := 1000000.

(** [INT_MAX], the bound [std::stoi] checks. *)
Definition INT_MAX : Z := 2147483647.

(** IEEE-754 binary32 ([float]) and binary64 ([double]) values, both as
    [spec_float]; each operation rounds to nearest-even in its format. *)
Module Flt.

Definition float := spec_float.
Definition double := spec_float.

Definition zero : float := S754_zero false.

(** Conversion [uint32_t -> float] (rounds above 2^24). *)
Definition of_u32 (n : Z) : float := binary_normalize 24 128 n 0 false.

Definition add (x y : float) : float := SFadd 24 128 x y.
Definition div (x y : float) : float := SFdiv 24 128 x y.

(** Promotion [float -> double]: exact, the mantissa is renormalised to
    53 bits so that [SFcompare] sees two canonical binary64 values. *)
Definition to_double (x : float) : double :=
  match x with
  | S754_finite s m e => binary_round 53 1024 s m e
  | _ => x
  end.

(** Conversion [double -> float], as in the initialisation of a [float]
    variable from a [double] expression. *)
Definition of_double (x : double) : float :=
  match x with
  | S754_finite s m e => binary_round 24 128 s m e
  | _ => x
  end.

Definition dmul (x y : double) : double := SFmul 53 1024 x y.
Definition dltb (x y : double) : bool := SFltb x y.

(** A decimal literal [n / 10^k] of type [double], correctly rounded. *)
Definition dlit (n : Z) (pow10 : Z) : double :=
  SFdiv 53 1024 (binary_normalize 53 1024 n 0 false)
                (binary_normalize 53 1024 pow10 0 false).

Definition d50_0 : double := dlit 50 1.
Definition d90_0 : double := dlit 90 1.
Definition d99_0 : double := dlit 99 1.
Definition d99_9 : double := dlit 999 10.
Definition d100_0 : double := dlit 100 1.

(** [x / y < c] with [x] a [float], [y] a [uint32_t] and [c] a [double]
    literal: [y] is converted to [float], the quotient is a [float], and
    the comparison is made in [double].  A NaN quotient (0/0) compares
    false. *)
Definition ratio_below (x : float) (y : Z) (c : double) : bool :=
  dltb (to_double (div x (of_u32 y))) c.

End Flt.

(** [for (i = lo; i < hi; i += step) a = body i a;], with the number of
    iterations bounded by [fuel].  [for_range] gives it the fuel [hi - lo],
    which is enough for every [step >= 1] (lemma [for_loop_fuel] below). *)
Fixpoint for_loop {A : Type} (fuel : nat) (i hi step : Z)
         (body : Z -> A -> A) (a : A) : A :=
  match fuel with
  | O => a
  | S fuel' =>
      if i <? hi then for_loop fuel' (i + step) hi step body (body i a)
      else a
  end.

Definition for_range {A : Type} (lo hi step : Z) (body : Z -> A -> A) (a : A) : A :=
  for_loop (Z.to_nat (hi - lo)) lo hi step body a.

(* ================================================================= *)
(** ** [class EventStatistic] *)

(** [array<uint32_t, microsecondsInSecond> _histogram] is a total map from
    the index to the counter; only indices in [0, microsecondsInSecond) are
    ever read or written. *)
Definition histogram := Z -> Z.

Definition hist_set (h : histogram) (i v : Z) : histogram :=
  fun j => if j =? i then v else h j.

Record EventStatistic := {
  _minimum : Z;
  _maximum : Z;
  _median : Z;
  _122us_90_0_percentel : Z;
  _140us_99_0_percentel : Z;
  _145us_99_9_percentel : Z;
  _total_counter : Z;
  _below_122us_counter : Z;
  _below_140us_counter : Z;
  _below_145us_counter : Z;
  _histogram : histogram
}.

(** [Reset()], which is also the constructor. *)
Definition Reset : EventStatistic := {|
  _minimum := 0;
  _maximum := 0;
  _median := 0;
  _122us_90_0_percentel := 0;
  _140us_99_0_percentel := 0;
  _145us_99_9_percentel := 0;
  _total_counter := 0;
  _below_122us_counter := 0;
  _below_140us_counter := 0;
  _below_145us_counter := 0;
  _histogram := fun _ => 0
|}.

(** [AddData(uint32_t delay)], lines 66-86. *)
Definition AddData (delay : Z) (s : EventStatistic) : EventStatistic :=
  let delay := delay mod microsecondsInSecond in
  {| _minimum :=
       if (delay <? _minimum s) || (_minimum s =? 0) then delay
       else _minimum s;
     _maximum := if delay >? _maximum s then delay else _maximum s;
     _median := _median s;
     _122us_90_0_percentel := _122us_90_0_percentel s;
     _140us_99_0_percentel := _140us_99_0_percentel s;
     _145us_99_9_percentel := _145us_99_9_percentel s;
     _total_counter := u32 (_total_counter s + 1);
     _below_122us_counter :=
       if delay <? 122 then u32 (_below_122us_counter s + 1)
       else _below_122us_counter s;
     _below_140us_counter :=
       if delay <? 140 then u32 (_below_140us_counter s + 1)
       else _below_140us_counter s;
     _below_145us_counter :=
       if delay <? 145 then u32 (_below_145us_counter s + 1)
       else _below_145us_counter s;
     _histogram :=
       hist_set (_histogram s) delay (u32 (_histogram s delay + 1)) |}.

(** A sequence of [AddData] calls, in order. *)
Definition AddDataList (delays : list Z) (s : EventStatistic) : EventStatistic :=
  fold_left (fun s d => AddData d s) delays s.

(** The four summary fields [Calc] assigns, and its four [float] locals. *)
Record CalcOut := {
  o_median : Z;
  o_122us_90_0_percentel : Z;
  o_140us_99_0_percentel : Z;
  o_145us_99_9_percentel : Z
}.

Record CalcLocals := {
  local_median_counter : Flt.float;
  local_122us_counter : Flt.float;
  local_140us_counter : Flt.float;
  local_145us_counter : Flt.float
}.

(** One guarded update of [Calc]:
    [if (local / denom < target) { out = delay; local += count; }]. *)
Definition Calc_update (local : Flt.float) (denom : Z) (target : Flt.double)
           (delay count out : Z) : Z * Flt.float :=
  if Flt.ratio_below local denom target
  then (delay, Flt.add local (Flt.of_u32 count))
  else (out, local).

(** The body of the loop of [Calc], lines 96-133, for one [delay]. *)
Definition Calc_body (s : EventStatistic) (delay : Z)
           (st : CalcOut * CalcLocals) : CalcOut * CalcLocals :=
  let '(o, l) := st in
  let count := _histogram s delay in
  if count =? 0 then st else
  let '(med, lmed) :=
    Calc_update (local_median_counter l) (_total_counter s) Flt.d50_0
                delay count (o_median o) in
  let '(p90, l122) :=
    if delay <? 122 then
      Calc_update (local_122us_counter l) (_below_122us_counter s) Flt.d90_0
                  delay count (o_122us_90_0_percentel o)
    else (o_122us_90_0_percentel o, local_122us_counter l) in
  let '(p99, l140) :=
    if delay <? 140 then
      Calc_update (local_140us_counter l) (_below_140us_counter s) Flt.d99_0
                  delay count (o_140us_99_0_percentel o)
    else (o_140us_99_0_percentel o, local_140us_counter l) in
  let '(p999, l145) :=
    if delay <? 145 then
      Calc_update (local_145us_counter l) (_below_145us_counter s) Flt.d99_9
                  delay count (o_145us_99_9_percentel o)
    else (o_145us_99_9_percentel o, local_145us_counter l) in
  ({| o_median := med;
      o_122us_90_0_percentel := p90;
      o_140us_99_0_percentel := p99;
      o_145us_99_9_percentel := p999 |},
   {| local_median_counter := lmed;
      local_122us_counter := l122;
      local_140us_counter := l140;
      local_145us_counter := l145 |}).

Definition Calc_init (s : EventStatistic) : CalcOut * CalcLocals :=
  ({| o_median := _median s;
      o_122us_90_0_percentel := _122us_90_0_percentel s;
      o_140us_99_0_percentel := _140us_99_0_percentel s;
      o_145us_99_9_percentel := _145us_99_9_percentel s |},
   {| local_median_counter := Flt.zero;
      local_122us_counter := Flt.zero;
      local_140us_counter := Flt.zero;
      local_145us_counter := Flt.zero |}).

(** The loop of [Calc] over the buckets [lo <= delay < hi]. *)
Definition Calc_loop (s : EventStatistic) (lo hi : Z)
           (st : CalcOut * CalcLocals) : CalcOut * CalcLocals :=
  for_range lo hi 1 (Calc_body s) st.

Definition Calc_store (s : EventStatistic) (o : CalcOut) : EventStatistic :=
  {| _minimum := _minimum s;
     _maximum := _maximum s;
     _median := o_median o;
     _122us_90_0_percentel := o_122us_90_0_percentel o;
     _140us_99_0_percentel := o_140us_99_0_percentel o;
     _145us_99_9_percentel := o_145us_99_9_percentel o;
     _total_counter := _total_counter s;
     _below_122us_counter := _below_122us_counter s;
     _below_140us_counter := _below_140us_counter s;
     _below_145us_counter := _below_145us_counter s;
     _histogram := _histogram s |}.

(** [Calc()], lines 88-134.  Only the four summary fields are assigned; the
    counters and the histogram are read. *)
Definition Calc (s : EventStatistic) : EventStatistic :=
  Calc_store s (fst (Calc_loop s 0 microsecondsInSecond (Calc_init s))).

Definition GetMinimun (s : EventStatistic) : Z := _minimum s.
Definition GetMedian (s : EventStatistic) : Z := _median s.
Definition Get122us90Percentel (s : EventStatistic) : Z := _122us_90_0_percentel s.
Definition Get140us99Percentel (s : EventStatistic) : Z := _140us_99_0_percentel s.
Definition Get145us999Percentel (s : EventStatistic) : Z := _145us_99_9_percentel s.

(** [ostream << uint32_t]: the decimal digits. *)
Definition show_u32 (n : Z) : string :=
  NilZero.string_of_uint (N.to_uint (Z.to_N n)).

Definition TAB : ascii := "009"%char.
Definition NL : ascii := "010"%char.
Definition NUL : ascii := "000"%char.
Definition tab : string := String TAB EmptyString.
Definition endl : string := String NL EmptyString.

(** [GetReport()], lines 142-152. *)
Definition GetReport (s : EventStatistic) : string :=
  ("min=" ++ show_u32 (GetMinimun s)
   ++ " 50%=" ++ show_u32 (GetMedian s)
   ++ " 90%=" ++ show_u32 (Get122us90Percentel s)
   ++ " 99%=" ++ show_u32 (Get140us99Percentel s)
   ++ " 99.9%=" ++ show_u32 (Get145us999Percentel s))%string.

(** [GetFullReport()], lines 154-182.  [show_float] stands for the
    standard library's [ostream << float], which is not part of the
    repository.  The loop bounds are below [microsecondsInSecond + 5] on
    every state [AddData] can build, so [exec_time += step] never wraps. *)
Section FullReport.

Variable show_float : Flt.float -> string.

Definition GetFullReport_body (s : EventStatistic) (step : Z) (exec_time : Z)
           (st : string * Z) : string * Z :=
  let '(buf, trans_no_below_exec_time) := st in
  let trans_no :=
    for_range exec_time (exec_time + step) 1
              (fun i t => u32 (t + _histogram s i)) 0 in
  if trans_no =? 0 then st else
  let weight :=
    Flt.of_double
      (Flt.dmul (Flt.to_double
                   (Flt.div (Flt.of_u32 trans_no) (Flt.of_u32 (_total_counter s))))
                Flt.d100_0) in
  let percent :=
    Flt.of_double
      (Flt.dmul (Flt.to_double
                   (Flt.div (Flt.of_u32 trans_no_below_exec_time)
                            (Flt.of_u32 (_total_counter s))))
                Flt.d100_0) in
  ((buf ++ show_u32 exec_time ++ tab ++ show_u32 trans_no ++ tab
        ++ show_float weight ++ tab ++ show_float percent ++ endl)%string,
   u32 (trans_no_below_exec_time + trans_no)).

Definition GetFullReport (s : EventStatistic) : string :=
  let step := 5 in
  let range_min := u32 (_minimum s - _minimum s mod step) in
  let range_max := u32 (_maximum s - _maximum s mod step + step) in
  let header :=
    ("ExecTime" ++ tab ++ "TransNo" ++ tab ++ "Weight,%" ++ tab
                ++ "Percent" ++ endl)%string in
  fst (for_range range_min range_max step (GetFullReport_body s step)
                 (header, 0)).

End FullReport.

(* ================================================================= *)
(** ** [class Statistic] *)

Definition Event := string.
Bind Scope string_scope with Event.

(** [map<Event, EventStatistic>]: the entries in ascending key order
    ([std::less<string>], bytes compared as unsigned). *)
Definition EventMap := list (Event * EventStatistic).

(** [map::count]: 0 or 1. *)
Fixpoint map_count (k : Event) (m : EventMap) : Z :=
  match m with
  | [] => 0
  | (k', _) :: m' => if String.eqb k k' then 1 else map_count k m'
  end.

Fixpoint map_find (k : Event) (m : EventMap) : option EventStatistic :=
  match m with
  | [] => None
  | (k', v) :: m' => if String.eqb k k' then Some v else map_find k m'
  end.

(** [map::insert]: a present key keeps its value. *)
Fixpoint map_insert (k : Event) (v : EventStatistic) (m : EventMap) : EventMap :=
  match m with
  | [] => [(k, v)]
  | (k', v') :: m' =>
      match String.compare k k' with
      | Lt => (k, v) :: m
      | Eq => m
      | Gt => (k', v') :: map_insert k v m'
      end
  end.

(** A member function applied through the reference [map[k]] returns:
    [operator[]] first inserts a default-constructed value for a new key. *)
Fixpoint map_adjust (k : Event) (f : EventStatistic -> EventStatistic)
         (m : EventMap) : EventMap :=
  match m with
  | [] => []
  | (k', v) :: m' =>
      if String.eqb k k' then (k', f v) :: m'
      else (k', v) :: map_adjust k f m'
  end.

Definition map_subscript_apply (k : Event) (f : EventStatistic -> EventStatistic)
           (m : EventMap) : EventMap :=
  map_adjust k f (map_insert k Reset m).

Definition map_subscript_get (k : Event) (m : EventMap) : EventStatistic :=
  match map_find k (map_insert k Reset m) with
  | Some v => v
  | None => Reset
  end.

Record Statistic := { _events : EventMap }.

(** [static Statistic stats;] before any call. *)
Definition stats_init : Statistic := {| _events := [] |}.

(** [AddEvent], lines 191-196. *)
Definition AddEvent (event : Event) (stat : Statistic) : Statistic :=
  if map_count event (_events stat) =? 0
  then {| _events := map_insert event Reset (_events stat) |}
  else stat.

(** [AddEventData], lines 198-203. *)
Definition AddEventData (event : Event) (delay : Z) (stat : Statistic) : Statistic :=
  let stat := AddEvent event stat in
  {| _events := map_subscript_apply event (AddData delay) (_events stat) |}.

(** [GetEventStatistic], lines 205-215: the new registry and the string
    returned. *)
Definition GetEventStatistic (event : Event) (stat : Statistic) : Statistic * string :=
  let stat := AddEvent event stat in
  let result := (event ++ " ")%string in
  let stat := {| _events := map_subscript_apply event Calc (_events stat) |} in
  let result :=
    (result ++ GetReport (map_subscript_get event (_events stat)) ++ endl)%string in
  (stat, result).

Section FullStatistic.

Variable show_float : Flt.float -> string.

(** The loop [for (auto& e : _events)] of [GetFullStatistic]. *)
Fixpoint GetFullStatistic_loop (m : EventMap) (result : string) : EventMap * string :=
  match m with
  | [] => ([], result)
  | (first, second) :: m' =>
      let second := Calc second in
      let result :=
        (result ++ first ++ " " ++ GetReport second ++ endl)%string in
      let result :=
        (result ++ GetFullReport show_float second ++ endl)%string in
      let '(m'', result) := GetFullStatistic_loop m' result in
      ((first, second) :: m'', result)
  end.

(** [GetFullStatistic], lines 217-229. *)
Definition GetFullStatistic (stat : Statistic) : Statistic * string :=
  let '(m, result) := GetFullStatistic_loop (_events stat) EmptyString in
  ({| _events := m |}, result).

End FullStatistic.

(* ================================================================= *)
(** ** [MainHandler]: the record parser *)

(** The exceptions [std::stoi] throws. *)
Inductive exn := invalid_argument | out_of_range.

Definition char_code (c : ascii) : Z := Z.of_N (N_of_ascii c).

(** [isdigit] in the C locale. *)
Definition isdigit (c : ascii) : bool :=
  (48 <=? char_code c) && (char_code c <=? 57).

Fixpoint decimal_value (acc : Z) (s : string) : Z :=
  match s with
  | EmptyString => acc
  | String c s' => decimal_value (acc * 10 + (char_code c - 48)) s'
  end.

(** [std::stoi] on a string of decimal digits (all [avgtsmr] ever holds):
    no digits is [invalid_argument], a value above [INT_MAX] is
    [out_of_range]. *)
Definition stoi (s : string) : exn + Z :=
  match s with
  | EmptyString => inl invalid_argument
  | _ =>
      let v := decimal_value 0 s in
      if v >? INT_MAX then inl out_of_range else inr v
  end.

(** The locals of [MainHandler] that live across loop iterations. *)
Record Locals := {
  event : string;
  avgtsmr : string;
  section : Z;
  tab_counter : Z
}.

Definition Locals_init : Locals :=
  {| event := EmptyString; avgtsmr := EmptyString; section := 0; tab_counter := 0 |}.

(** [s += c] on a [std::string]. *)
Definition push_back (s : string) (c : ascii) : string :=
  (s ++ String c EmptyString)%string.

(** How a piece of [MainHandler] ends: it falls through with its locals, or
    an exception leaves it.  Either way the registry keeps what was written
    to it. *)
Inductive outcome (S : Type) :=
| Running (l : Locals) (stat : S)
| Thrown (e : exn) (stat : S).
Arguments Running {S} l stat.
Arguments Thrown {S} e stat.

(** How [MainHandler] itself ends. *)
Inductive result (S : Type) :=
| Returned (stat : S)
| Uncaught (e : exn) (stat : S).
Arguments Returned {S} stat.
Arguments Uncaught {S} e stat.

(** The parser is written over any sink [S] with an [AddEventData]
    operation: [Statistic] with its own [AddEventData] is the program, a
    list of pairs with [emit] below records the calls made. *)
Section Parser.

Context {S : Type}.
Variable addEventData : Event -> Z -> S -> S.

(** The body of the inner loop, lines 380-426, for the byte [c = buf[i]]. *)
Definition MainHandler_byte (c : ascii) (l : Locals) (stat : S) : outcome S :=
  if section l =? 0 then
    if Ascii.eqb c "]"%char
    then Running {| event := event l; avgtsmr := avgtsmr l;
                    section := section l + 1; tab_counter := tab_counter l |} stat
    else Running l stat
  else if section l =? 1 then
    if Ascii.eqb c TAB
    then Running {| event := EmptyString; avgtsmr := avgtsmr l;
                    section := section l + 1; tab_counter := tab_counter l |} stat
    else Running {| event := event l; avgtsmr := avgtsmr l;
                    section := 0; tab_counter := tab_counter l |} stat
  else if section l =? 2 then
    if Ascii.eqb c TAB
    then Running {| event := event l; avgtsmr := avgtsmr l;
                    section := section l + 1; tab_counter := 1 |} stat
    else Running {| event := push_back (event l) c; avgtsmr := avgtsmr l;
                    section := section l; tab_counter := tab_counter l |} stat
  else if section l =? 3 then
    let tab_counter' :=
      if Ascii.eqb c TAB then tab_counter l + 1 else tab_counter l in
    if tab_counter' =? 14
    then Running {| event := event l; avgtsmr := EmptyString;
                    section := section l + 1; tab_counter := tab_counter' |} stat
    else Running {| event := event l; avgtsmr := avgtsmr l;
                    section := section l; tab_counter := tab_counter' |} stat
  else if section l =? 4 then
    if isdigit c
    then Running {| event := event l; avgtsmr := push_back (avgtsmr l) c;
                    section := section l; tab_counter := tab_counter l |} stat
    else
      match stoi (avgtsmr l) with
      | inl e => Thrown e stat
      | inr delay =>
          Running {| event := event l; avgtsmr := avgtsmr l;
                     section := 0; tab_counter := tab_counter l |}
                  (addEventData (event l) (u32 delay) stat)
      end
  else Running l stat.

(** The inner loop [for (i = 0; i < cur_size; i++)] over one buffer. *)
Fixpoint MainHandler_buf (buf : list ascii) (l : Locals) (stat : S) : outcome S :=
  match buf with
  | [] => Running l stat
  | c :: buf' =>
      match MainHandler_byte c l stat with
      | Running l' stat' => MainHandler_buf buf' l' stat'
      | Thrown e stat' => Thrown e stat'
      end
  end.

(** The outer loop [for (EVER)]: [reads] lists what the successive calls
    of [read] deliver; an empty read ([cur_size == 0]) is the [break], and
    so is the end of the list. *)
Fixpoint MainHandler_reads (reads : list (list ascii)) (l : Locals) (stat : S)
  : outcome S :=
  match reads with
  | [] => Running l stat
  | buf :: reads' =>
      match buf with
      | [] => Running l stat
      | _ =>
          match MainHandler_buf buf l stat with
          | Running l' stat' => MainHandler_reads reads' l' stat'
          | Thrown e stat' => Thrown e stat'
          end
      end
  end.

(** [MainHandler], lines 359-429. *)
Definition MainHandler (reads : list (list ascii)) (stat : S) : result S :=
  match MainHandler_reads reads Locals_init stat with
  | Running _ stat' => Returned stat'
  | Thrown e stat' => Uncaught e stat'
  end.

End Parser.

(** The sink that records the [(event, delay)] pairs handed to
    [AddEventData], oldest first. *)
Definition emit (ev : Event) (delay : Z) (tr : list (Event * Z)) : list (Event * Z) :=
  (tr ++ [(ev, delay)])%list.

(** The parser's emitted pairs on a byte stream read in the given pieces. *)
Definition emitted (reads : list (list ascii)) : result (list (Event * Z)) :=
  MainHandler emit reads [].

(** The sink after the calls of [addEventData] recorded in [tr]; an
    outcome of the recording sink, replayed on a sink [stat0]. *)
Section Replay.

Context {S : Type}.
Variable addEventData : Event -> Z -> S -> S.

Definition replay (stat0 : S) (tr : list (Event * Z)) : S :=
  fold_left (fun st p => addEventData (fst p) (snd p) st) tr stat0.

Definition replay_outcome (stat0 : S) (o : outcome (list (Event * Z))) : outcome S :=
  match o with
  | Running l tr => Running l (replay stat0 tr)
  | Thrown e tr => Thrown e (replay stat0 tr)
  end.

End Replay.

(* ================================================================= *)
(** ** [UDPHandler] *)

(** [struct sockaddr], carried from [recvfrom] to [sendto] unchanged. *)
Record sockaddr := { sa_family : Z; sa_data : list ascii }.

Record datagram := { dg_addr : sockaddr; dg_payload : list ascii }.

(** [recvfrom(descriptor, buf, len, ...)]: the first [len] bytes of the
    datagram overwrite the beginning of [buf]; the rest of [buf] keeps what
    it held. *)
Definition recvfrom (buf : list ascii) (len : Z) (payload : list ascii) : list ascii :=
  let data := firstn (Z.to_nat len) payload in
  (data ++ skipn (List.length data) buf)%list.

(** [string event(buf)]: the bytes before the first NUL.  [None] when the
    array holds no NUL, where the constructor reads past its end. *)
Fixpoint string_of_cstr (buf : list ascii) : option string :=
  match buf with
  | [] => None
  | c :: buf' =>
      if Ascii.eqb c NUL then Some EmptyString
      else option_map (String c) (string_of_cstr buf')
  end.

(** The event name [UDPHandler] looks up for a datagram, given what the
    unitialised array [char buf[len]] holds on entry. *)
Definition UDPHandler_event (buf0 : list ascii) (payload : list ascii) : option string :=
  string_of_cstr (recvfrom buf0 1024 payload).

(** [UDPHandler], lines 437-449, for one received datagram: the registry
    afterwards and the datagrams sent.  [None] is not "nothing happens": it
    marks the undefined behaviour of [string event(buf)] reading past the
    array, after which the program goes on with a name the array does not
    determine. *)
Definition UDPHandler (buf0 : list ascii) (request : datagram) (stat : Statistic)
  : option (Statistic * list datagram) :=
  match UDPHandler_event buf0 (dg_payload request) with
  | None => None
  | Some event =>
      let '(stat', report) := GetEventStatistic event stat in
      Some (stat', [ {| dg_addr := dg_addr request;
                        dg_payload := list_ascii_of_string report |} ])
  end.

(* ================================================================= *)
(** ** Quantities the properties are stated with *)

(** The sum of the [n] bucket counters from index [lo] on, as a
    mathematical integer. *)
Fixpoint bucket_sum (h : histogram) (lo : Z) (n : nat) : Z :=
  match n with
  | O => 0
  | S n' => h lo + bucket_sum h (lo + 1) n'
  end.

(** The sum of the bucket counters with index strictly below [bound]. *)
Definition sum_below (h : histogram) (bound : Z) : Z :=
  bucket_sum h 0 (Z.to_nat bound).

(** [ks] is strictly ascending inside [lo, hi). *)
Fixpoint ascending_in (lo hi : Z) (ks : list Z) : bool :=
  match ks with
  | [] => true
  | k :: ks' => (lo <=? k) && (k <? hi) && ascending_in (k + 1) hi ks'
  end.

(** What relates a histogram to the [k] calls of [AddData] that built it. *)
Record hist_inv (s : EventStatistic) (k : Z) : Prop := {
  inv_nonneg : forall i, 0 <= _histogram s i;
  inv_sum : sum_below (_histogram s) microsecondsInSecond = k;
  inv_total : _total_counter s = k;
  inv_122 : _below_122us_counter s = sum_below (_histogram s) 122;
  inv_140 : _below_140us_counter s = sum_below (_histogram s) 140;
  inv_145 : _below_145us_counter s = sum_below (_histogram s) 145
}.

(** [n] tab characters. *)
Definition tabs (n : nat) : string := string_of_list_ascii (repeat TAB n).

(** A record in the wire format: a bracketed field, the event, thirteen
    empty filler fields, the delay field and a newline. *)
Definition wire_record (ev : string) (delay_field : string) : string :=
  ("[t]" ++ tab ++ ev ++ tab ++ tabs 13 ++ delay_field ++ endl)%string.

(** The summary line of an event without data. *)
Definition zero_summary : string := "min=0 50%=0 90%=0 99%=0 99.9%=0"%string.

(** [sub] occurs in [s]. *)
Definition occurs_in (sub s : string) : Prop :=
  exists pre post, s = (pre ++ sub ++ post)%string.

(** [m] holds [v] under [k], behind smaller keys only: where the ordered
    search for [k] ends. *)
Definition at_key (k : Event) (v : EventStatistic) (m : EventMap) : Prop :=
  exists pre post,
    m = (pre ++ (k, v) :: post)%list /\
    Forall (fun p => String.compare k (fst p) = Gt) pre.

(** The delay [AddData] stores for the argument [d]. *)
Definition reduced (d : Z) : Z := d mod microsecondsInSecond.

(** How many delays of the list are stored in bucket [i]. *)
Definition hits (i : Z) (delays : list Z) : Z :=
  Z.of_nat (count_occ Z.eq_dec (map reduced delays) i).

(** How many delays of the list are stored below [bound]. *)
Definition hits_below (bound : Z) (delays : list Z) : Z :=
  Z.of_nat (List.length (filter (fun d => reduced d <? bound) delays)).

(** The four values [Calc] assigns, read from a state. *)
Definition summary_of (s : EventStatistic) : CalcOut :=
  {| o_median := _median s;
     o_122us_90_0_percentel := _122us_90_0_percentel s;
     o_140us_99_0_percentel := _140us_99_0_percentel s;
     o_145us_99_9_percentel := _145us_99_9_percentel s |}.

(** [v] is the value [v0] held before, or a non-empty bucket of [s] below
    [bound]. *)
Definition kept_or_bucket (s : EventStatistic) (bound v0 v : Z) : Prop :=
  v = v0 \/ (0 <= v < bound /\ _histogram s v <> 0).

(** The four values of the summary, each with the counter [Calc] divides
    by for it. *)
Inductive slot := Median | P90_under_122 | P99_under_140 | P999_under_145.

Definition slot_value (sl : slot) (s : EventStatistic) : Z :=
  match sl with
  | Median => GetMedian s
  | P90_under_122 => Get122us90Percentel s
  | P99_under_140 => Get140us99Percentel s
  | P999_under_145 => Get145us999Percentel s
  end.

Definition slot_denominator (sl : slot) (s : EventStatistic) : Z :=
  match sl with
  | Median => _total_counter s
  | P90_under_122 => _below_122us_counter s
  | P99_under_140 => _below_140us_counter s
  | P999_under_145 => _below_145us_counter s
  end.

(** The keys of the registry are strictly ascending: every key once, in
    the order [std::map] iterates. *)
Fixpoint keys_ascending (m : EventMap) : Prop :=
  match m with
  | [] => True
  | (k, _) :: m' =>
      Forall (fun p => String.compare k (fst p) = Lt) m' /\ keys_ascending m'
  end.

(** The statistics held under [k], a default-constructed one for a key
    that is not there: what the reference [m[k]] gives. *)
Definition entry (k : Event) (m : EventMap) : EventStatistic :=
  match map_find k m with
  | Some v => v
  | None => Reset
  end.

(** The delays of the pairs recorded for [e], in order. *)
Definition delays_of (e : Event) (tr : list (Event * Z)) : list Z :=
  map snd (filter (fun p => String.eqb (fst p) e) tr).

(** The sink a call of [MainHandler] leaves, however it ends. *)
Definition result_sink {S : Type} (r : result S) : S :=
  match r with
  | Returned stat => stat
  | Uncaught _ stat => stat
  end.

(** What [GetFullStatistic] prints for one entry. *)
Definition dump_block (show_float : Flt.float -> string)
           (p : Event * EventStatistic) : string :=
  ((fst p ++ " " ++ GetReport (Calc (snd p)) ++ endl)
     ++ GetFullReport show_float (Calc (snd p)) ++ endl)%string.

(** One record on the wire with the bytes that precede its bracket: the
    event field, the filler fields, each ended by a tab, the delay field
    and the byte that ends it. *)
Record wire := {
  w_junk : list ascii;
  w_event : string;
  w_fillers : list string;
  w_digits : string;
  w_term : ascii
}.

Definition filler_bytes (fs : list string) : list ascii :=
  List.concat (map (fun f => list_ascii_of_string f ++ [TAB])%list fs).

Definition wire_bytes (w : wire) : list ascii :=
  (w_junk w ++ "]"%char :: TAB :: list_ascii_of_string (w_event w)
          ++ TAB :: filler_bytes (w_fillers w)
          ++ list_ascii_of_string (w_digits w) ++ [w_term w])%list.

Definition stream_bytes (ws : list wire) : list ascii :=
  List.concat (map wire_bytes ws).

Definition tab_free (s : string) : Prop := ~ In TAB (list_ascii_of_string s).

(** The framing of a record: no bracket before its own, no tab inside a
    field, thirteen fillers, digits only in the delay field and a byte
    that is not a digit after it. *)
Record well_framed (w : wire) : Prop := {
  wf_junk : ~ In "]"%char (w_junk w);
  wf_event : tab_free (w_event w);
  wf_count : List.length (w_fillers w) = 13%nat;
  wf_fillers : Forall tab_free (w_fillers w);
  wf_digits : Forall (fun c => isdigit c = true) (list_ascii_of_string (w_digits w));
  wf_term : isdigit (w_term w) = false
}.

(** A record [stoi] accepts: at least one digit, value at most [INT_MAX]. *)
Definition well_formed (w : wire) : Prop :=
  well_framed w /\ w_digits w <> EmptyString /\
  decimal_value 0 (w_digits w) <= INT_MAX.

(** The pair a well-formed record stands for. *)
Definition wire_pair (w : wire) : Event * Z :=
  (w_event w, decimal_value 0 (w_digits w)).

(** What the loop of [Calc] keeps true of the four values. *)
Definition Calc_values_inv (s : EventStatistic) (st : CalcOut * CalcLocals) : Prop :=
  kept_or_bucket s microsecondsInSecond (_median s) (o_median (fst st)) /\
  kept_or_bucket s 122 (_122us_90_0_percentel s) (o_122us_90_0_percentel (fst st)) /\
  kept_or_bucket s 140 (_140us_99_0_percentel s) (o_140us_99_0_percentel (fst st)) /\
  kept_or_bucket s 145 (_145us_99_9_percentel s) (o_145us_99_9_percentel (fst st)).

(** What the loop of [Calc] keeps true of a value whose denominator is
    zero: the value and its running count are as at the start. *)
Definition Calc_slot_inv (s : EventStatistic) (sl : slot) (st : CalcOut * CalcLocals) : Prop :=
  match sl with
  | Median =>
      o_median (fst st) = _median s /\ local_median_counter (snd st) = Flt.zero
  | P90_under_122 =>
      o_122us_90_0_percentel (fst st) = _122us_90_0_percentel s /\
      local_122us_counter (snd st) = Flt.zero
  | P99_under_140 =>
      o_140us_99_0_percentel (fst st) = _140us_99_0_percentel s /\
      local_140us_counter (snd st) = Flt.zero
  | P999_under_145 =>
      o_145us_99_9_percentel (fst st) = _145us_99_9_percentel s /\
      local_145us_counter (snd st) = Flt.zero
  end.

(** Two runs of the loop of [Calc] on the same counters, the second
    started from the values [F]: the running counts agree, and each value
    of the second run is that of the first or still the one of [F]. *)
Definition Calc_rerun_inv (F : CalcOut) (a b : CalcOut * CalcLocals) : Prop :=
  snd a = snd b /\
  (o_median (fst b) = o_median (fst a) \/ o_median (fst b) = o_median F) /\
  (o_122us_90_0_percentel (fst b) = o_122us_90_0_percentel (fst a) \/
   o_122us_90_0_percentel (fst b) = o_122us_90_0_percentel F) /\
  (o_140us_99_0_percentel (fst b) = o_140us_99_0_percentel (fst a) \/
   o_140us_99_0_percentel (fst b) = o_140us_99_0_percentel F) /\
  (o_145us_99_9_percentel (fst b) = o_145us_99_9_percentel (fst a) \/
   o_145us_99_9_percentel (fst b) = o_145us_99_9_percentel F).

(* ================================================================= *)
(** * Properties *)

(** ** The [for] loop *)

Lemma for_loop_fuel {A} (body : Z -> A -> A) (hi step : Z) :
  1 <= step ->
  forall (f1 f2 : nat) (i : Z) (a : A),
    hi - i <= Z.of_nat f1 -> hi - i <= Z.of_nat f2 ->
    for_loop f1 i hi step body a = for_loop f2 i hi step body a.
Proof.
  intros Hstep f1.
  induction f1 as [|f1 IH]; intros f2 i a H1 H2.
  - destruct f2 as [|f2]; [reflexivity|].
    cbn [for_loop]. destruct (Z.ltb_spec i hi); [lia | reflexivity].
  - destruct f2 as [|f2]; cbn [for_loop].
    + destruct (Z.ltb_spec i hi); [lia | reflexivity].
    + destruct (Z.ltb_spec i hi); [|reflexivity].
      apply IH; lia.
Qed.

Lemma for_range_done {A} (body : Z -> A -> A) (lo hi step : Z) (a : A) :
  hi <= lo -> for_range lo hi step body a = a.
Proof.
  intros H. unfold for_range.
  destruct (Z.to_nat (hi - lo)) as [|n]; cbn [for_loop]; [reflexivity|].
  destruct (Z.ltb_spec lo hi); [lia | reflexivity].
Qed.

Lemma for_range_unroll {A} (body : Z -> A -> A) (lo hi step : Z) (a : A) :
  1 <= step -> lo < hi ->
  for_range lo hi step body a = for_range (lo + step) hi step body (body lo a).
Proof.
  intros Hs H. unfold for_range.
  destruct (Z.to_nat (hi - lo)) as [|n] eqn:E; [lia|].
  cbn [for_loop]. destruct (Z.ltb_spec lo hi); [|lia].
  apply for_loop_fuel; lia.
Qed.

(** Buckets on which the body does nothing can be stepped over. *)
Lemma for_range_skip {A} (body : Z -> A -> A) (hi : Z) (a : A) :
  forall (n : nat) (lo mid : Z),
    Z.of_nat n = mid - lo -> mid <= hi ->
    (forall k, lo <= k < mid -> body k a = a) ->
    for_range lo hi 1 body a = for_range mid hi 1 body a.
Proof.
  induction n as [|n IH]; intros lo mid Hn Hhi Hskip.
  - replace mid with lo by lia. reflexivity.
  - rewrite for_range_unroll by lia.
    rewrite Hskip by lia.
    apply IH; [lia | lia |].
    intros k Hk. apply Hskip. lia.
Qed.

(** An invariant of the body on the indices of the range is an invariant
    of the loop. *)
Lemma for_range_invariant {A} (P : A -> Prop) (body : Z -> A -> A) (lo hi step : Z) :
  0 <= step ->
  (forall k a, lo <= k < hi -> P a -> P (body k a)) ->
  forall a, P a -> P (for_range lo hi step body a).
Proof.
  intros Hstep Hbody. unfold for_range.
  generalize (Z.to_nat (hi - lo)) as fuel. intros fuel.
  assert (G : forall i a, lo <= i -> P a -> P (for_loop fuel i hi step body a)).
  { induction fuel as [|fuel IH]; intros i a Hi Ha; cbn [for_loop]; [exact Ha|].
    destruct (Z.ltb_spec i hi); [|exact Ha].
    apply IH; [lia|]. apply Hbody; [lia | exact Ha]. }
  intros a Ha. apply G; [lia | exact Ha].
Qed.

(** The same for a relation between two runs of one loop. *)
Lemma for_range_related {A} (R : A -> A -> Prop) (body1 body2 : Z -> A -> A)
      (lo hi step : Z) :
  0 <= step ->
  (forall k a b, lo <= k < hi -> R a b -> R (body1 k a) (body2 k b)) ->
  forall a b, R a b ->
    R (for_range lo hi step body1 a) (for_range lo hi step body2 b).
Proof.
  intros Hstep Hbody. unfold for_range.
  generalize (Z.to_nat (hi - lo)) as fuel. intros fuel.
  assert (G : forall i a b, lo <= i -> R a b ->
                R (for_loop fuel i hi step body1 a) (for_loop fuel i hi step body2 b)).
  { induction fuel as [|fuel IH]; intros i a b Hi Hab; cbn [for_loop]; [exact Hab|].
    destruct (Z.ltb_spec i hi); [|exact Hab].
    apply IH; [lia|]. apply Hbody; [lia | exact Hab]. }
  intros a b Hab. apply G; [lia | exact Hab].
Qed.

(** The loops below run up to a million times: from here on they are
    only reasoned about through the lemmas above. *)
Opaque for_range.

(** ** [Calc] *)

Lemma Calc_body_empty (s : EventStatistic) (k : Z) (st : CalcOut * CalcLocals) :
  _histogram s k = 0 -> Calc_body s k st = st.
Proof.
  intros H. unfold Calc_body. destruct st as [o l]. rewrite H. reflexivity.
Qed.

Lemma ascending_in_lower (hi : Z) (ks : list Z) :
  forall b, ascending_in b hi ks = true -> forall j, In j ks -> b <= j.
Proof.
  induction ks as [|x ks IHks]; intros b Hb j Hj; [destruct Hj|].
  cbn [ascending_in] in Hb.
  apply andb_prop in Hb. destruct Hb as [Hb1 Hb2].
  apply andb_prop in Hb1. destruct Hb1 as [Hb1 _]. apply Z.leb_le in Hb1.
  destruct Hj as [->|Hj]; [exact Hb1|].
  specialize (IHks _ Hb2 _ Hj). lia.
Qed.

(** [Calc] only acts on the non-empty buckets: when [ks] lists, in
    ascending order, buckets outside of which the histogram is zero, the
    loop is the body run on [ks]. *)
Lemma Calc_loop_support (s : EventStatistic) (hi : Z) :
  forall (ks : list Z) (lo : Z) (st : CalcOut * CalcLocals),
    ascending_in lo hi ks = true ->
    (forall k, lo <= k < hi -> ~ In k ks -> _histogram s k = 0) ->
    Calc_loop s lo hi st = fold_left (fun st k => Calc_body s k st) ks st.
Proof.
  unfold Calc_loop.
  induction ks as [|k ks IH]; intros lo st Hasc Hzero.
  - cbn [fold_left].
    destruct (Z.le_gt_cases hi lo) as [Hle|Hgt].
    + apply for_range_done. exact Hle.
    + rewrite (for_range_skip _ hi st (Z.to_nat (hi - lo)) lo hi); try lia.
      * apply for_range_done. lia.
      * intros j Hj. apply Calc_body_empty. apply Hzero; [lia | intros []].
  - cbn [ascending_in] in Hasc.
    apply andb_prop in Hasc. destruct Hasc as [Hb Hasc].
    apply andb_prop in Hb. destruct Hb as [Hlo Hhi].
    apply Z.leb_le in Hlo. apply Z.ltb_lt in Hhi.
    assert (Hafter : forall j, In j ks -> k < j).
    { intros j Hj. pose proof (ascending_in_lower hi ks _ Hasc j Hj). lia. }
    rewrite (for_range_skip _ hi st (Z.to_nat (k - lo)) lo k); try lia.
    + rewrite for_range_unroll by lia.
      cbn [fold_left]. apply IH; [exact Hasc|].
      intros j Hj Hnot. apply Hzero; [lia|].
      intros [->|Hin]; [lia | contradiction].
    + intros j Hj. apply Calc_body_empty. apply Hzero; [lia|].
      intros [->|Hin]; [lia|]. specialize (Hafter _ Hin). lia.
Qed.

Lemma Calc_support (s : EventStatistic) (ks : list Z) :
  ascending_in 0 microsecondsInSecond ks = true ->
  (forall k, 0 <= k < microsecondsInSecond -> ~ In k ks -> _histogram s k = 0) ->
  Calc s = Calc_store s (fst (fold_left (fun st k => Calc_body s k st) ks (Calc_init s))).
Proof.
  intros Hasc Hzero. unfold Calc.
  apply (f_equal (fun st => Calc_store s (fst st))).
  apply Calc_loop_support; assumption.
Qed.

Lemma delay_reduced (d : Z) :
  0 <= d mod microsecondsInSecond < microsecondsInSecond.
Proof. apply Z.mod_pos_bound. reflexivity. Qed.

Lemma AddData_histogram (d : Z) (s : EventStatistic) (k : Z) :
  _histogram (AddData d s) k =
  if k =? d mod microsecondsInSecond
  then u32 (_histogram s (d mod microsecondsInSecond) + 1)
  else _histogram s k.
Proof. reflexivity. Qed.

(** A bucket no delay of the list falls into is left alone. *)
Lemma AddDataList_histogram_other (l : list Z) (k : Z) :
  Forall (fun d => d mod microsecondsInSecond <> k) l ->
  forall s, _histogram (AddDataList l s) k = _histogram s k.
Proof.
  unfold AddDataList.
  induction 1 as [|d l Hd _ IH]; intros s; cbn [fold_left]; [reflexivity|].
  rewrite IH, AddData_histogram.
  destruct (Z.eqb_spec k (d mod microsecondsInSecond)); [congruence | reflexivity].
Qed.

Lemma Calc_Reset : Calc Reset = Reset.
Proof.
  rewrite (Calc_support Reset []).
  - reflexivity.
  - reflexivity.
  - intros k _ _. reflexivity.
Qed.

(** C1 (the code at the spec's worked example).  After nine delays of 10
    and one of 130, [Calc] leaves the median at 130, the largest recorded
    delay, where the segment-relative algorithm of the spec gives 10; the
    90th percentile under 122 is 10.  Every running fraction is at most 1
    and is compared with 50.0, 90.0, 99.0 and 99.9, so no bucket is ever
    passed over. *)
Theorem Calc_worked_example :
  let s := Calc (AddDataList (repeat 10 9%nat ++ [130]) Reset) in
  GetMedian s = 130 /\ Get122us90Percentel s = 10 /\
  GetReport s = "min=10 50%=130 90%=10 99%=130 99.9%=130"%string.
Proof.
  rewrite (Calc_support _ [10; 130]).
  - vm_compute. repeat split; reflexivity.
  - reflexivity.
  - intros k _ Hnot.
    assert (Hk : k <> 10 /\ k <> 130) by (cbn [In] in Hnot; lia).
    rewrite AddDataList_histogram_other; [reflexivity|].
    cbn [repeat app]. unfold microsecondsInSecond.
    repeat (apply Forall_cons; [cbv beta; Z.div_mod_to_equations; lia|]).
    apply Forall_nil.
Qed.

(** On a histogram with samples on both sides of every bound, each of the
    four values is the largest non-empty bucket below its bound. *)
Lemma Calc_largest_bucket_example :
  GetReport (Calc (AddDataList [10; 10; 10; 121; 122; 139; 140; 144; 145; 900000] Reset))
  = "min=10 50%=900000 90%=121 99%=139 99.9%=144"%string.
Proof.
  rewrite (Calc_support _ [10; 121; 122; 139; 140; 144; 145; 900000]).
  - vm_compute. reflexivity.
  - reflexivity.
  - intros k _ Hnot.
    assert (Hk : k <> 10 /\ k <> 121 /\ k <> 122 /\ k <> 139 /\ k <> 140 /\
                 k <> 144 /\ k <> 145 /\ k <> 900000)
      by (cbn [In] in Hnot; lia).
    rewrite AddDataList_histogram_other; [reflexivity|].
    unfold microsecondsInSecond.
    repeat (apply Forall_cons; [cbv beta; Z.div_mod_to_equations; lia|]).
    apply Forall_nil.
Qed.

(** [AddData] keeps the minimum and the maximum inside the histogram, so
    the bounds of the loop of [GetFullReport] stay below 2^32. *)
Lemma AddData_min_max_range (s : EventStatistic) (d : Z) :
  0 <= _minimum s < microsecondsInSecond ->
  0 <= _maximum s < microsecondsInSecond ->
  0 <= _minimum (AddData d s) < microsecondsInSecond /\
  0 <= _maximum (AddData d s) < microsecondsInSecond.
Proof.
  intros Hmin Hmax. pose proof (delay_reduced d) as Hd.
  cbn [AddData _minimum _maximum].
  destruct ((d mod microsecondsInSecond <? _minimum s) || (_minimum s =? 0));
    destruct (d mod microsecondsInSecond >? _maximum s); lia.
Qed.

(** ** [AddData] and the summary fields *)

(** C3 (as stated, refuted).  On a fresh [EventStatistic] a single
    [AddData(5)] changes the reported minimum from 0 to 5, so the five
    summary values are not all left unchanged by an insert. *)
Lemma AddData_changes_minimum :
  let s := Reset in
  let d := 5 in
  ~ (GetMinimun (AddData d s) = GetMinimun s /\
     GetMedian (AddData d s) = GetMedian s /\
     Get122us90Percentel (AddData d s) = Get122us90Percentel s /\
     Get140us99Percentel (AddData d s) = Get140us99Percentel s /\
     Get145us999Percentel (AddData d s) = Get145us999Percentel s).
Proof.
  cbv zeta. intros [Hmin _]. vm_compute in Hmin. discriminate Hmin.
Qed.

(** C3 (amended).  [AddData] leaves the four percentile fields (median,
    90% under 122, 99% under 140, 99.9% under 145) unchanged for every
    state and delay: they are assigned by [Calc] only.  The minimum is not
    part of what [Calc] computes: [Calc] leaves it, and the counters and
    the histogram, as they are. *)
Theorem AddData_keeps_percentiles (s : EventStatistic) (d : Z) :
  (GetMedian (AddData d s) = GetMedian s /\
   Get122us90Percentel (AddData d s) = Get122us90Percentel s /\
   Get140us99Percentel (AddData d s) = Get140us99Percentel s /\
   Get145us999Percentel (AddData d s) = Get145us999Percentel s) /\
  (GetMinimun (Calc s) = GetMinimun s /\
   _maximum (Calc s) = _maximum s /\
   _total_counter (Calc s) = _total_counter s /\
   _histogram (Calc s) = _histogram s).
Proof.
  repeat split; reflexivity.
Qed.

(** C7.  [AddData] assigns the (reduced) delay to the minimum exactly when
    it is below the current minimum or the current minimum is 0, and keeps
    the minimum otherwise; a fresh event has and reports minimum 0; after
    the delays 300 and 50 the minimum is 50. *)
Theorem AddData_minimum :
  (forall (s : EventStatistic) (d : Z),
      let delay := d mod microsecondsInSecond in
      GetMinimun (AddData d s) =
      if (delay <? GetMinimun s) || (GetMinimun s =? 0) then delay
      else GetMinimun s) /\
  GetMinimun Reset = 0 /\
  GetReport Reset = ("min=0" ++ " 50%=0 90%=0 99%=0 99.9%=0")%string /\
  GetMinimun (AddData 300 Reset) = 300 /\
  GetMinimun (AddDataList [300; 50] Reset) = 50.
Proof.
  repeat split; reflexivity.
Qed.

(** ** Bucket sums *)

Lemma bucket_sum_nonneg (h : histogram) :
  (forall i, 0 <= h i) -> forall n lo, 0 <= bucket_sum h lo n.
Proof.
  intros Hh. induction n as [|n IH]; intros lo; cbn [bucket_sum]; [lia|].
  specialize (IH (lo + 1)). specialize (Hh lo). lia.
Qed.

Lemma bucket_sum_app (h : histogram) :
  forall n m lo,
    bucket_sum h lo (n + m) = bucket_sum h lo n + bucket_sum h (lo + Z.of_nat n) m.
Proof.
  induction n as [|n IH]; intros m lo.
  - cbn [bucket_sum Nat.add Z.of_nat]. rewrite Z.add_0_r. reflexivity.
  - cbn [bucket_sum Nat.add]. rewrite IH.
    replace (lo + 1 + Z.of_nat n) with (lo + Z.of_nat (S n)) by lia. lia.
Qed.

Lemma bucket_sum_set_out (h : histogram) (d v : Z) :
  forall n lo,
    d < lo \/ lo + Z.of_nat n <= d ->
    bucket_sum (hist_set h d v) lo n = bucket_sum h lo n.
Proof.
  induction n as [|n IH]; intros lo Hd; cbn [bucket_sum]; [reflexivity|].
  rewrite IH by lia. unfold hist_set at 1.
  destruct (Z.eqb_spec lo d); [lia | reflexivity].
Qed.

Lemma bucket_sum_set_in (h : histogram) (d v : Z) :
  forall n lo,
    lo <= d < lo + Z.of_nat n ->
    bucket_sum (hist_set h d v) lo n = bucket_sum h lo n - h d + v.
Proof.
  induction n as [|n IH]; intros lo Hd; cbn [bucket_sum]; [lia|].
  unfold hist_set at 1.
  destruct (Z.eqb_spec lo d) as [->|Hne].
  - rewrite bucket_sum_set_out by lia. lia.
  - rewrite IH by lia. lia.
Qed.

Lemma bucket_le_sum (h : histogram) :
  (forall i, 0 <= h i) ->
  forall n lo d, lo <= d < lo + Z.of_nat n -> h d <= bucket_sum h lo n.
Proof.
  intros Hh. induction n as [|n IH]; intros lo d Hd; cbn [bucket_sum]; [lia|].
  destruct (Z.eq_dec lo d) as [->|Hne].
  - pose proof (bucket_sum_nonneg h Hh n (d + 1)). lia.
  - specialize (IH (lo + 1) d). specialize (Hh lo). lia.
Qed.

Lemma sum_below_mono (h : histogram) (a b : Z) :
  (forall i, 0 <= h i) -> 0 <= a <= b -> sum_below h a <= sum_below h b.
Proof.
  intros Hh Hab. unfold sum_below.
  replace (Z.to_nat b) with (Z.to_nat a + Z.to_nat (b - a))%nat by lia.
  rewrite bucket_sum_app.
  pose proof (bucket_sum_nonneg h Hh (Z.to_nat (b - a)) (0 + Z.of_nat (Z.to_nat a))).
  lia.
Qed.

(** The effect of one bucket increment on the sum below a bound. *)
Lemma sum_below_set (h : histogram) (d v bound : Z) :
  0 <= d -> 0 <= bound ->
  sum_below (hist_set h d v) bound =
  if d <? bound then sum_below h bound - h d + v else sum_below h bound.
Proof.
  intros Hd Hb. unfold sum_below.
  destruct (Z.ltb_spec d bound).
  - apply bucket_sum_set_in. lia.
  - apply bucket_sum_set_out. lia.
Qed.

Lemma bucket_sum_zero (h : histogram) :
  (forall i, h i = 0) -> forall n lo, bucket_sum h lo n = 0.
Proof.
  intros Hh. induction n as [|n IH]; intros lo; cbn [bucket_sum]; [reflexivity|].
  rewrite Hh, IH. reflexivity.
Qed.

Lemma u32_small (z : Z) : 0 <= z < 2 ^ 32 -> u32 z = z.
Proof. intros H. unfold u32. apply Z.mod_small. exact H. Qed.

(** ** The histogram invariant *)

Lemma hist_inv_Reset : hist_inv Reset 0.
Proof.
  assert (Hz : forall b, sum_below (_histogram Reset) b = 0).
  { intros b. unfold sum_below. apply bucket_sum_zero. reflexivity. }
  split; rewrite ?Hz.
  - intros i. cbn [Reset _histogram]. lia.
  - reflexivity.
  - reflexivity.
  - reflexivity.
  - reflexivity.
  - reflexivity.
Qed.

(** One [AddData] that does not overflow a counter keeps the invariant. *)
Lemma AddData_inv (s : EventStatistic) (k d : Z) :
  hist_inv s k -> 0 <= k -> k + 1 < 2 ^ 32 ->
  hist_inv (AddData d s) (k + 1).
Proof.
  intros [Hnn Hsum Htot H122 H140 H145] Hk Hbound.
  pose proof (delay_reduced d) as Hd.
  set (delay := d mod microsecondsInSecond) in *.
  unfold microsecondsInSecond in Hd.
  assert (Hbucket : _histogram s delay <= k).
  { rewrite <- Hsum. unfold sum_below, microsecondsInSecond.
    apply bucket_le_sum; [exact Hnn | lia]. }
  assert (Hle : forall b, 0 <= b <= 1000000 -> sum_below (_histogram s) b <= k).
  { intros b Hb. rewrite <- Hsum. apply sum_below_mono; [exact Hnn | exact Hb]. }
  assert (Hge : forall b, 0 <= sum_below (_histogram s) b).
  { intros b. apply bucket_sum_nonneg. exact Hnn. }
  pose proof (Hnn delay) as Hnd.
  assert (Hnew : u32 (_histogram s delay + 1) = _histogram s delay + 1)
    by (apply u32_small; lia).
  split; cbn [AddData _histogram _total_counter _below_122us_counter
              _below_140us_counter _below_145us_counter];
    fold delay; rewrite ?Hnew.
  - intros i. unfold hist_set. destruct (i =? delay); [lia | apply Hnn].
  - rewrite sum_below_set by (unfold microsecondsInSecond; lia).
    unfold microsecondsInSecond in *.
    destruct (Z.ltb_spec delay 1000000); lia.
  - rewrite Htot. apply u32_small. lia.
  - rewrite sum_below_set by lia. rewrite H122.
    destruct (delay <? 122); [|reflexivity].
    pose proof (Hle 122). pose proof (Hge 122).
    rewrite u32_small by lia. lia.
  - rewrite sum_below_set by lia. rewrite H140.
    destruct (delay <? 140); [|reflexivity].
    pose proof (Hle 140). pose proof (Hge 140).
    rewrite u32_small by lia. lia.
  - rewrite sum_below_set by lia. rewrite H145.
    destruct (delay <? 145); [|reflexivity].
    pose proof (Hle 145). pose proof (Hge 145).
    rewrite u32_small by lia. lia.
Qed.

Lemma AddDataList_app (l1 l2 : list Z) (s : EventStatistic) :
  AddDataList (l1 ++ l2) s = AddDataList l2 (AddDataList l1 s).
Proof. apply fold_left_app. Qed.

Lemma AddDataList_inv (l : list Z) :
  forall (s : EventStatistic) (k : Z),
    hist_inv s k -> 0 <= k -> k + Z.of_nat (List.length l) < 2 ^ 32 ->
    hist_inv (AddDataList l s) (k + Z.of_nat (List.length l)).
Proof.
  induction l as [|d l IH]; intros s k Hinv Hk Hlen.
  - cbn [List.length Z.of_nat]. rewrite Z.add_0_r. exact Hinv.
  - cbn [List.length] in *. rewrite Nat2Z.inj_succ in *.
    replace (k + Z.succ (Z.of_nat (List.length l)))
      with ((k + 1) + Z.of_nat (List.length l)) by lia.
    change (AddDataList (d :: l) s) with (AddDataList l (AddData d s)).
    apply IH; [|lia|lia].
    apply AddData_inv; [exact Hinv | lia | lia].
Qed.

(** C6 (as stated, refuted).  After 2^32 - 1 calls [AddData(0)] and one
    call [AddData(1)] the buckets sum to 2^32, while the 32-bit total
    count has wrapped to 0. *)
Lemma bucket_sum_exceeds_wrapped_total :
  let s := AddDataList (repeat 0 (Z.to_nat (2 ^ 32 - 1)) ++ [1]) Reset in
  sum_below (_histogram s) microsecondsInSecond = 2 ^ 32 /\
  _total_counter s = 0 /\
  sum_below (_histogram s) microsecondsInSecond <> _total_counter s.
Proof.
  cbv zeta. rewrite AddDataList_app.
  set (n := Z.to_nat (2 ^ 32 - 1)).
  assert (Hn : Z.of_nat (List.length (repeat 0 n)) = 2 ^ 32 - 1).
  { rewrite repeat_length. unfold n. apply Z2Nat.id. lia. }
  pose proof (AddDataList_inv (repeat 0 n) Reset 0 hist_inv_Reset) as Hinv.
  rewrite Hn in Hinv. specialize (Hinv ltac:(lia) ltac:(lia)).
  assert (H1 : _histogram (AddDataList (repeat 0 n) Reset) 1 = 0).
  { rewrite AddDataList_histogram_other; [reflexivity|].
    apply Forall_forall. intros x Hx. apply repeat_spec in Hx. subst x.
    unfold microsecondsInSecond. rewrite Z.mod_0_l; lia. }
  set (s1 := AddDataList (repeat 0 n) Reset) in *.
  destruct Hinv as [Hnn Hsum Htot _ _ _].
  change (AddDataList [1] s1) with (AddData 1 s1).
  assert (Hs : sum_below (_histogram (AddData 1 s1)) microsecondsInSecond = 2 ^ 32).
  { cbn [AddData _histogram].
    change (1 mod microsecondsInSecond) with 1.
    rewrite sum_below_set by (unfold microsecondsInSecond; lia).
    change (1 <? microsecondsInSecond) with true. cbv iota.
    rewrite Hsum, H1. change (u32 (0 + 1)) with 1. lia. }
  assert (Ht : _total_counter (AddData 1 s1) = 0).
  { cbn [AddData _total_counter]. rewrite Htot.
    replace (0 + (2 ^ 32 - 1) + 1) with (2 ^ 32) by lia.
    unfold u32. apply Z.mod_same. lia. }
  rewrite Hs, Ht. repeat split. lia.
Qed.

(** C6 (amended).  After any sequence of fewer than 2^32 [AddData] calls
    on a fresh [EventStatistic], with arbitrary delay arguments, the sum of
    all 1,000,000 bucket counters equals the total count, which is the
    number of calls, and each threshold sub-count equals the sum of the
    bucket counters strictly below 122, 140 and 145. *)
Theorem AddData_bucket_sums (delays : list Z) :
  Z.of_nat (List.length delays) < 2 ^ 32 ->
  let s := AddDataList delays Reset in
  sum_below (_histogram s) microsecondsInSecond = _total_counter s /\
  _total_counter s = Z.of_nat (List.length delays) /\
  _below_122us_counter s = sum_below (_histogram s) 122 /\
  _below_140us_counter s = sum_below (_histogram s) 140 /\
  _below_145us_counter s = sum_below (_histogram s) 145.
Proof.
  intros Hlen s.
  destruct (AddDataList_inv delays Reset 0 hist_inv_Reset ltac:(lia) ltac:(lia))
    as [_ Hsum Htot H122 H140 H145].
  fold s in Hsum, Htot, H122, H140, H145.
  rewrite Hsum, Htot. repeat split; assumption || lia.
Qed.

Lemma AddData_bucket_sums_witness :
  Z.of_nat (List.length [5; 1000042; 130; 121; 4000000000]) < 2 ^ 32 /\
  let s := AddDataList [5; 1000042; 130; 121; 4000000000] Reset in
  sum_below (_histogram s) microsecondsInSecond = _total_counter s /\
  _total_counter s = Z.of_nat (List.length [5; 1000042; 130; 121; 4000000000]) /\
  _below_122us_counter s = sum_below (_histogram s) 122 /\
  _below_140us_counter s = sum_below (_histogram s) 140 /\
  _below_145us_counter s = sum_below (_histogram s) 145.
Proof.
  split.
  - cbn [List.length]. lia.
  - apply (AddData_bucket_sums [5; 1000042; 130; 121; 4000000000]).
    cbn [List.length]. lia.
Defined.

(** ** The registry *)

Lemma compare_refl (k : string) : String.compare k k = Eq.
Proof.
  pose proof (String.compare_antisym k k) as H.
  destruct (String.compare k k); [reflexivity | discriminate H | discriminate H].
Qed.

Lemma compare_Gt_neq (k k' : string) :
  String.compare k k' = Gt -> String.eqb k k' = false.
Proof.
  intros H. apply String.eqb_neq. intros ->.
  rewrite compare_refl in H. discriminate H.
Qed.

Lemma map_count_find (k : Event) (m : EventMap) :
  map_count k m = match map_find k m with Some _ => 1 | None => 0 end.
Proof.
  induction m as [|[k' v] m IH]; cbn [map_count map_find]; [reflexivity|].
  destruct (String.eqb k k'); [reflexivity | exact IH].
Qed.

Lemma at_key_find k v m : at_key k v m -> map_find k m = Some v.
Proof.
  intros (pre & post & -> & Hpre).
  induction Hpre as [|[k' v'] pre Hk _ IH]; cbn [app map_find].
  - rewrite String.eqb_refl. reflexivity.
  - cbn [fst] in Hk. rewrite (compare_Gt_neq _ _ Hk). exact IH.
Qed.

Lemma at_key_In k v m : at_key k v m -> In (k, v) m.
Proof.
  intros (pre & post & -> & _). apply in_elt.
Qed.

Lemma at_key_insert k v v' m : at_key k v m -> map_insert k v' m = m.
Proof.
  intros (pre & post & -> & Hpre).
  induction Hpre as [|[k' w] pre Hk _ IH]; cbn [app map_insert].
  - rewrite compare_refl. reflexivity.
  - cbn [fst] in Hk. rewrite Hk, IH. reflexivity.
Qed.

Lemma at_key_adjust k v f m : at_key k v m -> at_key k (f v) (map_adjust k f m).
Proof.
  intros (pre & post & -> & Hpre).
  exists pre, post. split; [|exact Hpre].
  induction Hpre as [|[k' w] pre Hk _ IH]; cbn [app map_adjust].
  - rewrite String.eqb_refl. reflexivity.
  - cbn [fst] in Hk. rewrite (compare_Gt_neq _ _ Hk), IH. reflexivity.
Qed.

Lemma insert_absent_at_key k v m :
  map_find k m = None -> at_key k v (map_insert k v m).
Proof.
  induction m as [|[k' w] m IH]; cbn [map_find map_insert]; intros Hfind.
  - exists [], []. split; [reflexivity | constructor].
  - destruct (String.eqb_spec k k') as [->|Hne]; [discriminate Hfind|].
    destruct (String.compare k k') eqn:Hc.
    + apply String.compare_eq_iff in Hc. contradiction.
    + exists [], ((k', w) :: m). split; [reflexivity | constructor].
    + destruct (IH Hfind) as (pre & post & Heq & Hpre).
      exists ((k', w) :: pre), post. split.
      * cbn [app]. rewrite Heq. reflexivity.
      * constructor; [exact Hc | exact Hpre].
Qed.

Lemma append_assoc (a b c : string) : ((a ++ b) ++ c = a ++ (b ++ c))%string.
Proof.
  induction a as [|x a IH]; cbn [append]; [reflexivity|].
  rewrite IH. reflexivity.
Qed.

(** Both sides of an equation between concatenations, right-nested. *)
Ltac string_normalize :=
  repeat first [rewrite append_assoc | progress cbn [append]].

Section FullStatisticFacts.

Variable show_float : Flt.float -> string.

(** The loop only appends to what [result] already holds. *)
Lemma GetFullStatistic_loop_result (m : EventMap) :
  forall result,
    snd (GetFullStatistic_loop show_float m result) =
    (result ++ snd (GetFullStatistic_loop show_float m EmptyString))%string.
Proof.
  induction m as [|[k v] m IH]; intros result; cbn [GetFullStatistic_loop].
  - cbn [snd]. clear. induction result as [|c r IHr]; cbn [append]; congruence.
  - destruct (GetFullStatistic_loop show_float m
                ((result ++ k ++ " " ++ GetReport (Calc v) ++ endl)
                   ++ GetFullReport show_float (Calc v) ++ endl)%string)
      as [m1 r1] eqn:E1.
    destruct (GetFullStatistic_loop show_float m
                ((EmptyString ++ k ++ " " ++ GetReport (Calc v) ++ endl)
                   ++ GetFullReport show_float (Calc v) ++ endl)%string)
      as [m2 r2] eqn:E2.
    cbn [snd].
    pose proof (IH ((result ++ k ++ " " ++ GetReport (Calc v) ++ endl)
                      ++ GetFullReport show_float (Calc v) ++ endl)%string) as H1.
    pose proof (IH ((EmptyString ++ k ++ " " ++ GetReport (Calc v) ++ endl)
                      ++ GetFullReport show_float (Calc v) ++ endl)%string) as H2.
    rewrite E1 in H1. rewrite E2 in H2. cbn [snd] in H1, H2.
    rewrite H1, H2. string_normalize. reflexivity.
Qed.

(** Every entry of the registry has its summary line in the dump. *)
Lemma GetFullStatistic_lists (k : Event) (v : EventStatistic) (m : EventMap) :
  In (k, v) m ->
  occurs_in (k ++ " " ++ GetReport (Calc v) ++ endl)
            (snd (GetFullStatistic_loop show_float m EmptyString)).
Proof.
  induction m as [|[k' v'] m IH]; intros Hin; [destruct Hin|].
  cbn [GetFullStatistic_loop].
  destruct (GetFullStatistic_loop show_float m
              ((EmptyString ++ k' ++ " " ++ GetReport (Calc v') ++ endl)
                 ++ GetFullReport show_float (Calc v') ++ endl)%string)
    as [m1 r1] eqn:E1.
  cbn [snd].
  pose proof (GetFullStatistic_loop_result m
                ((EmptyString ++ k' ++ " " ++ GetReport (Calc v') ++ endl)
                   ++ GetFullReport show_float (Calc v') ++ endl)%string) as H1.
  rewrite E1 in H1. cbn [snd] in H1. rewrite H1.
  destruct Hin as [Heq|Hin].
  - inversion Heq; subst k' v'.
    exists EmptyString,
      ((GetFullReport show_float (Calc v) ++ endl)
         ++ snd (GetFullStatistic_loop show_float m EmptyString))%string.
    string_normalize. reflexivity.
  - destruct (IH Hin) as (pre & post & Hocc).
    exists (((k' ++ " " ++ GetReport (Calc v') ++ endl)
               ++ GetFullReport show_float (Calc v') ++ endl) ++ pre)%string, post.
    rewrite Hocc. string_normalize. reflexivity.
Qed.

End FullStatisticFacts.

(** C8.  Querying a name the registry does not hold is answered, without
    failure, by the name followed by the all-zero summary; the query
    leaves a zero-valued entry under that name, and the line of that
    entry then occurs in the output of [GetFullStatistic]. *)
Theorem GetEventStatistic_unseen
        (show_float : Flt.float -> string) (name : Event) (stat : Statistic) :
  map_find name (_events stat) = None ->
  let stat' := fst (GetEventStatistic name stat) in
  snd (GetEventStatistic name stat) = (name ++ " " ++ zero_summary ++ endl)%string /\
  map_find name (_events stat') = Some Reset /\
  occurs_in (name ++ " " ++ zero_summary ++ endl)
            (snd (GetFullStatistic show_float stat')).
Proof.
  intros Habsent.
  unfold GetEventStatistic, AddEvent. cbn [fst snd].
  rewrite map_count_find, Habsent. cbn [Z.eqb _events].
  pose proof (insert_absent_at_key name Reset _ Habsent) as Hat.
  unfold map_subscript_apply, map_subscript_get.
  rewrite (at_key_insert _ _ _ _ Hat).
  pose proof (at_key_adjust _ _ Calc _ Hat) as Hat'.
  rewrite Calc_Reset in Hat'.
  rewrite (at_key_insert _ _ _ _ Hat').
  rewrite (at_key_find _ _ _ Hat').
  change (GetReport Reset) with zero_summary.
  split; [apply append_assoc|]. split; [reflexivity|].
  unfold GetFullStatistic. cbn [_events].
  destruct (GetFullStatistic_loop show_float
              (map_adjust name Calc (map_insert name Reset (_events stat)))
              EmptyString) as [m1 r1] eqn:E.
  cbn [snd].
  pose proof (GetFullStatistic_lists show_float name Reset _ (at_key_In _ _ _ Hat')) as H.
  rewrite E in H. cbn [snd] in H. rewrite Calc_Reset in H. exact H.
Qed.

Lemma GetEventStatistic_unseen_witness :
  map_find "orders"%string (_events stats_init) = None /\
  let stat' := fst (GetEventStatistic "orders"%string stats_init) in
  snd (GetEventStatistic "orders"%string stats_init)
  = ("orders" ++ " " ++ zero_summary ++ endl)%string /\
  map_find "orders"%string (_events stat') = Some Reset /\
  occurs_in ("orders"%string ++ " " ++ zero_summary ++ endl)
            (snd (GetFullStatistic (fun _ => EmptyString) stat')).
Proof.
  split.
  - reflexivity.
  - apply (GetEventStatistic_unseen (fun _ => EmptyString) "orders"%string stats_init).
    reflexivity.
Defined.

(** ** The record parser *)

Section ParserFacts.

Context {S : Type}.
Variable addEventData : Event -> Z -> S -> S.

Lemma MainHandler_buf_app (b1 b2 : list ascii) :
  forall (l : Locals) (stat : S),
    MainHandler_buf addEventData (b1 ++ b2) l stat =
    match MainHandler_buf addEventData b1 l stat with
    | Running l' stat' => MainHandler_buf addEventData b2 l' stat'
    | Thrown e stat' => Thrown e stat'
    end.
Proof.
  induction b1 as [|c b1 IH]; intros l stat; cbn [app MainHandler_buf].
  - reflexivity.
  - destruct (MainHandler_byte addEventData c l stat) as [l' stat'|e stat'].
    + apply IH.
    + reflexivity.
Qed.

(** One read of the whole stream is the inner loop on it. *)
Lemma MainHandler_reads_one (R : list ascii) (l : Locals) (stat : S) :
  MainHandler_reads addEventData [R] l stat = MainHandler_buf addEventData R l stat.
Proof.
  cbn [MainHandler_reads]. destruct R as [|c R]; [reflexivity|].
  destruct (MainHandler_buf addEventData (c :: R) l stat); reflexivity.
Qed.

(** The locals survive from one read to the next, so non-empty reads
    behave as their concatenation. *)
Lemma MainHandler_reads_concat (chunks : list (list ascii)) :
  Forall (fun c => c <> []) chunks ->
  forall (l : Locals) (stat : S),
    MainHandler_reads addEventData chunks l stat =
    MainHandler_buf addEventData (List.concat chunks) l stat.
Proof.
  induction 1 as [|c chunks Hc _ IH]; intros l stat.
  - reflexivity.
  - cbn [List.concat]. rewrite MainHandler_buf_app.
    cbn [MainHandler_reads]. destruct c as [|x c]; [contradiction|].
    destruct (MainHandler_buf addEventData (x :: c) l stat) as [l' stat'|e stat'].
    + apply IH.
    + reflexivity.
Qed.

Lemma MainHandler_byte_replay (stat0 : S) (c : ascii) (l : Locals)
      (tr : list (Event * Z)) :
  MainHandler_byte addEventData c l (replay addEventData stat0 tr) =
  replay_outcome addEventData stat0 (MainHandler_byte emit c l tr).
Proof.
  unfold MainHandler_byte.
  repeat match goal with
         | |- context [if ?b then _ else _] => destruct b
         | |- context [match stoi ?s with _ => _ end] => destruct (stoi s)
         end; cbn [replay_outcome]; try reflexivity.
  unfold emit, replay. rewrite fold_left_app. reflexivity.
Qed.

Lemma MainHandler_buf_replay (stat0 : S) (buf : list ascii) :
  forall (l : Locals) (tr : list (Event * Z)),
    MainHandler_buf addEventData buf l (replay addEventData stat0 tr) =
    replay_outcome addEventData stat0 (MainHandler_buf emit buf l tr).
Proof.
  induction buf as [|c buf IH]; intros l tr; cbn [MainHandler_buf].
  - reflexivity.
  - rewrite MainHandler_byte_replay.
    destruct (MainHandler_byte emit c l tr) as [l' tr'|e tr']; cbn [replay_outcome].
    + apply IH.
    + reflexivity.
Qed.

Lemma MainHandler_reads_replay (stat0 : S) (reads : list (list ascii)) :
  forall (l : Locals) (tr : list (Event * Z)),
    MainHandler_reads addEventData reads l (replay addEventData stat0 tr) =
    replay_outcome addEventData stat0 (MainHandler_reads emit reads l tr).
Proof.
  induction reads as [|buf reads IH]; intros l tr; cbn [MainHandler_reads].
  - reflexivity.
  - destruct buf as [|c buf]; [reflexivity|].
    rewrite MainHandler_buf_replay.
    destruct (MainHandler_buf emit (c :: buf) l tr) as [l' tr'|e tr'];
      cbn [replay_outcome].
    + apply IH.
    + reflexivity.
Qed.

(** What [MainHandler] does to its sink is determined by the pairs it
    emits. *)
Lemma MainHandler_emitted (reads : list (list ascii)) (stat : S) :
  MainHandler addEventData reads stat =
  match emitted reads with
  | Returned tr => Returned (replay addEventData stat tr)
  | Uncaught e tr => Uncaught e (replay addEventData stat tr)
  end.
Proof.
  unfold emitted, MainHandler.
  change stat with (replay addEventData stat []) at 1.
  rewrite MainHandler_reads_replay.
  destruct (MainHandler_reads emit reads Locals_init []); reflexivity.
Qed.

End ParserFacts.

(** C5.  Feeding a byte sequence [R] to the parser in any number of
    consecutive non-empty reads produces the same emitted pairs, and the
    same registry, as feeding [R] in one read (an exception thrown on the
    way included). *)
Theorem MainHandler_chunk_invariant (R : list ascii) (chunks : list (list ascii)) :
  Forall (fun c => c <> []) chunks ->
  List.concat chunks = R ->
  emitted chunks = emitted [R] /\
  forall stat : Statistic,
    MainHandler AddEventData chunks stat = MainHandler AddEventData [R] stat.
Proof.
  intros Hne <-.
  assert (H : emitted chunks = emitted [List.concat chunks]).
  { unfold emitted, MainHandler.
    rewrite MainHandler_reads_concat by exact Hne.
    rewrite MainHandler_reads_one. reflexivity. }
  split; [exact H|].
  intros stat. rewrite !MainHandler_emitted, H. reflexivity.
Qed.

Lemma MainHandler_chunk_invariant_witness :
  let R := list_ascii_of_string (wire_record "ORDER" "57") in
  let chunks := [firstn 2 R; firstn 5 (skipn 2 R); skipn 7 R] in
  Forall (fun c => c <> []) chunks /\
  List.concat chunks = R /\
  emitted chunks = emitted [R] /\
  forall stat : Statistic,
    MainHandler AddEventData chunks stat = MainHandler AddEventData [R] stat.
Proof.
  cbv zeta.
  assert (Hne : Forall (fun c : list ascii => c <> [])
                       [firstn 2 (list_ascii_of_string (wire_record "ORDER" "57"));
                        firstn 5 (skipn 2 (list_ascii_of_string (wire_record "ORDER" "57")));
                        skipn 7 (list_ascii_of_string (wire_record "ORDER" "57"))]).
  { repeat (apply Forall_cons; [vm_compute; discriminate|]). apply Forall_nil. }
  assert (Hcat : List.concat
                   [firstn 2 (list_ascii_of_string (wire_record "ORDER" "57"));
                    firstn 5 (skipn 2 (list_ascii_of_string (wire_record "ORDER" "57")));
                    skipn 7 (list_ascii_of_string (wire_record "ORDER" "57"))]
                 = list_ascii_of_string (wire_record "ORDER" "57")).
  { vm_compute. reflexivity. }
  split; [exact Hne|]. split; [exact Hcat|].
  exact (MainHandler_chunk_invariant _ _ Hne Hcat).
Defined.

(** With no digit buffered, any non-digit byte in the delay field makes
    [stoi] throw, and the exception leaves the loop. *)
Lemma MainHandler_byte_empty_delay (l : Locals) (c : ascii) (tr : list (Event * Z)) :
  section l = 4 -> avgtsmr l = EmptyString -> isdigit c = false ->
  MainHandler_byte emit c l tr = Thrown invalid_argument tr.
Proof.
  intros Hs Ha Hd. unfold MainHandler_byte.
  rewrite Hs, Ha, Hd. reflexivity.
Qed.

(** C2 (the code on a record with an empty delay field).  When the delay
    field ends with no digit buffered, [stoi] throws [invalid_argument]
    and nothing in [MainHandler] catches it.  On a stream of a well-formed
    record, a record with an empty delay field and another well-formed
    record, only the first pair is emitted and the call is left by the
    exception; the registry has counted the first record only. *)
Theorem MainHandler_empty_delay_throws :
  let stream :=
    list_ascii_of_string
      (wire_record "A" "57" ++ wire_record "B" "" ++ wire_record "C" "9") in
  emitted [stream] = Uncaught invalid_argument [("A"%string, 57)] /\
  MainHandler AddEventData [stream] stats_init =
  Uncaught invalid_argument (AddEventData "A" 57 stats_init).
Proof.
  cbv zeta.
  assert (H : emitted
                [list_ascii_of_string
                   (wire_record "A" "57" ++ wire_record "B" "" ++ wire_record "C" "9")]
              = Uncaught invalid_argument [("A"%string, 57)]).
  { vm_compute. reflexivity. }
  split; [exact H|].
  rewrite MainHandler_emitted, H. reflexivity.
Qed.

(** C10.  The stream "]", tab, tab, thirteen empty filler fields, "7" and a
    newline makes the parser emit a pair whose event name is the empty
    string, and the registry takes it: afterwards it holds one entry,
    under the empty string, with one delay counted in bucket 7. *)
Theorem MainHandler_empty_event_name :
  let stream := list_ascii_of_string ("]" ++ tab ++ tab ++ tabs 13 ++ "7" ++ endl) in
  emitted [stream] = Returned [(EmptyString, 7)] /\
  exists s : EventStatistic,
    MainHandler AddEventData [stream] stats_init
    = Returned {| _events := [(EmptyString, s)] |} /\
    _total_counter s = 1 /\ _histogram s 7 = 1 /\
    map_find EmptyString [(EmptyString, s)] = Some s.
Proof.
  cbv zeta. split; [vm_compute; reflexivity|].
  eexists. split; [vm_compute; reflexivity|].
  repeat split; reflexivity.
Qed.

(** ** [UDPHandler] *)

Lemma string_of_cstr_terminated (name : string) (rest : list ascii) :
  ~ In NUL (list_ascii_of_string name) ->
  string_of_cstr (list_ascii_of_string name ++ NUL :: rest) = Some name.
Proof.
  induction name as [|c name IH]; cbn [list_ascii_of_string app string_of_cstr];
    intros Hnul.
  - rewrite Ascii.eqb_refl. reflexivity.
  - destruct (Ascii.eqb_spec c NUL) as [->|Hc].
    + exfalso. apply Hnul. left. reflexivity.
    + rewrite IH; [reflexivity|].
      intros Hin. apply Hnul. right. exact Hin.
Qed.

Lemma length_list_ascii_of_string (s : string) :
  List.length (list_ascii_of_string s) = String.length s.
Proof.
  induction s as [|c s IH]; cbn [list_ascii_of_string List.length String.length];
    congruence.
Qed.

(** When the terminator arrives inside the first 1024 bytes, what [buf]
    held before does not matter. *)
Lemma UDPHandler_event_terminated (buf0 : list ascii) (name : string) (rest : list ascii) :
  ~ In NUL (list_ascii_of_string name) ->
  (String.length name < 1024)%nat ->
  UDPHandler_event buf0 (list_ascii_of_string name ++ NUL :: rest) = Some name.
Proof.
  intros Hnul Hlen. unfold UDPHandler_event, recvfrom.
  rewrite firstn_app, length_list_ascii_of_string.
  rewrite firstn_all2 by (rewrite length_list_ascii_of_string; lia).
  destruct (Z.to_nat 1024 - String.length name)%nat as [|k] eqn:Hk; [lia|].
  cbn [firstn]. rewrite <- app_assoc. cbn [app].
  apply string_of_cstr_terminated. exact Hnul.
Qed.

(** A NUL inside the datagram ends the name: for the five bytes "ab",
    NUL, "cd" the event looked up is "ab", whatever the array held. *)
Lemma UDPHandler_event_not_whole_payload :
  let payload := list_ascii_of_string ("ab" ++ String NUL "cd") in
  UDPHandler_event (repeat "x"%char 1024) payload = Some "ab"%string /\
  "ab"%string <> string_of_list_ascii payload.
Proof.
  cbv zeta. split.
  - vm_compute. reflexivity.
  - vm_compute. discriminate.
Qed.

(** A datagram without a NUL byte is continued by what the array held:
    after "ab" the two stale bytes "zq" are part of the name. *)
Lemma UDPHandler_event_stale_bytes :
  UDPHandler_event (list_ascii_of_string "wxzq" ++ repeat NUL 1020)
                   (list_ascii_of_string "ab")
  = Some "abzq"%string.
Proof. vm_compute. reflexivity. Qed.

(** A query on the empty registry: the entry made and the line returned. *)
Lemma GetEventStatistic_stats_init (e : Event) :
  GetEventStatistic e stats_init
  = ({| _events := [(e, Reset)] |}, (e ++ " " ++ zero_summary ++ endl)%string).
Proof.
  unfold GetEventStatistic, AddEvent, map_subscript_apply, map_subscript_get.
  cbn [stats_init _events map_count Z.eqb map_insert].
  rewrite compare_refl. cbn [map_adjust map_find].
  rewrite String.eqb_refl, Calc_Reset.
  cbn [map_insert]. rewrite compare_refl. cbn [map_find].
  rewrite String.eqb_refl.
  change (GetReport Reset) with zero_summary.
  rewrite append_assoc. reflexivity.
Qed.

(** C4 (the code on an ordinary query).  The six-byte datagram "CANCEL"
    is received into the 1024-byte array while it still holds
    "ORDERS_OLD" and NUL bytes.  [recvfrom] overwrites six bytes, its
    return value is dropped and [string event(buf)] reads on to the first
    NUL: the event looked up is "CANCEL_OLD", not the payload.  One reply
    is sent to the source address, for that name; the registry gets an
    entry "CANCEL_OLD" and none for "CANCEL". *)
Theorem UDPHandler_stale_buffer_query :
  let buf0 := (list_ascii_of_string "ORDERS_OLD" ++ repeat NUL 1014)%list in
  let src := {| sa_family := 2; sa_data := [] |} in
  let request := {| dg_addr := src; dg_payload := list_ascii_of_string "CANCEL" |} in
  List.length buf0 = 1024%nat /\
  UDPHandler_event buf0 (dg_payload request) = Some "CANCEL_OLD"%string /\
  UDPHandler buf0 request stats_init
  = Some ({| _events := [("CANCEL_OLD"%string, Reset)] |},
          [ {| dg_addr := src;
               dg_payload :=
                 list_ascii_of_string ("CANCEL_OLD" ++ " " ++ zero_summary ++ endl) |} ]) /\
  map_find "CANCEL" [("CANCEL_OLD"%string, Reset)] = None.
Proof.
  cbv zeta.
  assert (Hev : UDPHandler_event
                  (list_ascii_of_string "ORDERS_OLD" ++ repeat NUL 1014)
                  (list_ascii_of_string "CANCEL") = Some "CANCEL_OLD"%string)
    by (vm_compute; reflexivity).
  split; [vm_compute; reflexivity|]. split; [exact Hev|]. split.
  - unfold UDPHandler. cbn [dg_payload dg_addr]. rewrite Hev.
    rewrite GetEventStatistic_stats_init. reflexivity.
  - reflexivity.
Qed.

(** For every datagram whose payload holds a NUL byte within its first
    1024 bytes, the event looked up is the payload up to that NUL,
    whatever the receive buffer held before; exactly one datagram is sent,
    to the source address of the request, and it holds the event name, a
    space, the summary of that event and a newline. *)
Lemma UDPHandler_terminated_query
        (buf0 : list ascii) (src : sockaddr) (name : string) (rest : list ascii)
        (stat : Statistic) :
  ~ In NUL (list_ascii_of_string name) ->
  (String.length name < 1024)%nat ->
  let request := {| dg_addr := src;
                    dg_payload := (list_ascii_of_string name ++ NUL :: rest)%list |} in
  let stat' := fst (GetEventStatistic name stat) in
  UDPHandler_event buf0 (dg_payload request) = Some name /\
  UDPHandler buf0 request stat =
  Some (stat',
        [ {| dg_addr := src;
             dg_payload :=
               list_ascii_of_string
                 (name ++ " "
                       ++ GetReport (map_subscript_get name (_events stat'))
                       ++ endl) |} ]).
Proof.
  intros Hnul Hlen request stat'.
  pose proof (UDPHandler_event_terminated buf0 name rest Hnul Hlen) as Hev.
  split; [exact Hev|].
  unfold UDPHandler. subst request. cbn [dg_payload dg_addr].
  rewrite Hev. subst stat'.
  unfold GetEventStatistic. cbn [fst].
  rewrite append_assoc. reflexivity.
Qed.


(* ================================================================= *)
(** * Further properties *)

(** ** [AddData]: what the histogram and the aggregates hold *)

Lemma u32_succ (x : Z) : u32 (u32 x + 1) = u32 (x + 1).
Proof. unfold u32. apply Zplus_mod_idemp_l. Qed.

Lemma AddDataList_snoc (l : list Z) (d : Z) (s : EventStatistic) :
  AddDataList (l ++ [d]) s = AddData d (AddDataList l s).
Proof. rewrite AddDataList_app. reflexivity. Qed.

Lemma hits_snoc (i d : Z) (l : list Z) :
  hits i (l ++ [d]) = hits i l + (if i =? reduced d then 1 else 0).
Proof.
  unfold hits. rewrite map_app, count_occ_app, Nat2Z.inj_add.
  cbn [map count_occ].
  destruct (Z.eq_dec (reduced d) i) as [E|E]; destruct (Z.eqb_spec i (reduced d));
    try congruence; reflexivity.
Qed.

Lemma hits_below_snoc (b d : Z) (l : list Z) :
  hits_below b (l ++ [d]) = hits_below b l + (if reduced d <? b then 1 else 0).
Proof.
  unfold hits_below. rewrite filter_app, length_app, Nat2Z.inj_add.
  cbn [filter]. destruct (reduced d <? b); reflexivity.
Qed.

(** X1.  The seconds of a delay are dropped: two arguments in the range
    of [uint32_t] that differ by a multiple of 1,000,000 have the same
    effect on every field. *)
Theorem AddData_wraps (d k : Z) (s : EventStatistic) :
  0 <= d < 2 ^ 32 ->
  0 <= d + k * microsecondsInSecond < 2 ^ 32 ->
  AddData (d + k * microsecondsInSecond) s = AddData d s.
Proof.
  intros _ _. unfold AddData. rewrite Z_mod_plus_full. reflexivity.
Qed.

Lemma AddData_wraps_witness :
  0 <= 42 < 2 ^ 32 /\
  0 <= 42 + 4294 * microsecondsInSecond < 2 ^ 32 /\
  AddData (42 + 4294 * microsecondsInSecond) Reset = AddData 42 Reset.
Proof.
  assert (HA : 0 <= 42 < 2 ^ 32) by lia.
  assert (HB : 0 <= 42 + 4294 * microsecondsInSecond < 2 ^ 32)
    by (unfold microsecondsInSecond; lia).
  split; [exact HA|]. split; [exact HB|].
  exact (AddData_wraps 42 4294 Reset HA HB).
Defined.

(** X2.  After any sequence of [AddData] calls on a fresh histogram, with
    no bound on its length, each bucket holds the number of delays stored
    in it modulo 2^32, the total count is the number of calls modulo 2^32,
    and each threshold counter is the number of delays stored below its
    threshold modulo 2^32. *)
Theorem AddDataList_counts (delays : list Z) :
  let s := AddDataList delays Reset in
  (forall i, _histogram s i = u32 (hits i delays)) /\
  _total_counter s = u32 (Z.of_nat (List.length delays)) /\
  _below_122us_counter s = u32 (hits_below 122 delays) /\
  _below_140us_counter s = u32 (hits_below 140 delays) /\
  _below_145us_counter s = u32 (hits_below 145 delays).
Proof.
  cbv zeta.
  induction delays as [|d l IH] using rev_ind.
  - repeat split.
  - destruct IH as (Hh & Ht & H122 & H140 & H145).
    rewrite AddDataList_snoc.
    cbn [AddData _histogram _total_counter _below_122us_counter
                 _below_140us_counter _below_145us_counter].
    fold (reduced d).
    rewrite !hits_below_snoc, length_app, Nat2Z.inj_add.
    cbn [List.length Z.of_nat Pos.of_succ_nat].
    rewrite Ht, H122, H140, H145, !u32_succ.
    repeat split.
    + intros i. rewrite hits_snoc. unfold hist_set.
      destruct (Z.eqb_spec i (reduced d)) as [->|_].
      * rewrite Hh. apply u32_succ.
      * rewrite Z.add_0_r. apply Hh.
    + destruct (reduced d <? 122); [reflexivity|].
      rewrite Z.add_0_r. reflexivity.
    + destruct (reduced d <? 140); [reflexivity|].
      rewrite Z.add_0_r. reflexivity.
    + destruct (reduced d <? 145); [reflexivity|].
      rewrite Z.add_0_r. reflexivity.
Qed.

Lemma AddDataList_maximum_from (l : list Z) :
  forall s : EventStatistic,
    let m := _maximum (AddDataList l s) in
    _maximum s <= m /\
    Forall (fun d => reduced d <= m) l /\
    (m = _maximum s \/ In m (map reduced l)).
Proof.
  induction l as [|d l IH]; intros s; cbv zeta.
  - change (AddDataList [] s) with s.
    repeat split; [lia | constructor | left; reflexivity].
  - change (AddDataList (d :: l) s) with (AddDataList l (AddData d s)).
    assert (Hmax : _maximum (AddData d s) = Z.max (reduced d) (_maximum s)).
    { cbn [AddData _maximum]. fold (reduced d).
      destruct (Z.gtb_spec (reduced d) (_maximum s)); lia. }
    destruct (IH (AddData d s)) as (Hle & Hall & Hin).
    rewrite Hmax in Hle, Hin.
    set (m := _maximum (AddDataList l (AddData d s))) in *.
    repeat split; try lia.
    + constructor; [lia | exact Hall].
    + cbn [map In].
      destruct Hin as [Hm|Hin]; [|right; right; exact Hin].
      destruct (Z.max_spec (reduced d) (_maximum s)) as [[_ E]|[_ E]];
        rewrite E in Hm; [left; exact Hm | right; left; symmetry; exact Hm].
Qed.

(** X3.  The maximum is the true maximum of the stored delays: no stored
    delay exceeds it, and it is one of them (0 for an event without
    data). *)
Theorem AddDataList_maximum (delays : list Z) :
  let m := _maximum (AddDataList delays Reset) in
  Forall (fun d => reduced d <= m) delays /\
  (delays = [] /\ m = 0 \/ In m (map reduced delays)).
Proof.
  cbv zeta.
  destruct (AddDataList_maximum_from delays Reset) as (_ & Hall & Hin).
  split; [exact Hall|].
  destruct Hin as [Hm|Hin]; [|right; exact Hin].
  destruct delays as [|d l]; [left; split; [reflexivity | exact Hm]|].
  right. cbn [_maximum Reset] in Hm.
  pose proof (Forall_inv Hall) as Hd. cbv beta in Hd.
  pose proof (delay_reduced d) as Hr. fold (reduced d) in Hr.
  cbn [map In]. left. lia.
Qed.

Lemma AddDataList_minimum_from (l : list Z) :
  forall s : EventStatistic,
    0 < _minimum s ->
    Forall (fun d => reduced d <> 0) l ->
    let m := _minimum (AddDataList l s) in
    0 < m <= _minimum s /\
    Forall (fun d => m <= reduced d) l /\
    (m = _minimum s \/ In m (map reduced l)).
Proof.
  induction l as [|d l IH]; intros s Hpos Hnz; cbv zeta.
  - change (AddDataList [] s) with s.
    repeat split; [exact Hpos | lia | constructor | left; reflexivity].
  - change (AddDataList (d :: l) s) with (AddDataList l (AddData d s)).
    pose proof (Forall_inv Hnz) as Hd. cbv beta in Hd.
    pose proof (delay_reduced d) as Hr. fold (reduced d) in Hr.
    assert (Hmin : _minimum (AddData d s) = Z.min (reduced d) (_minimum s)).
    { cbn [AddData _minimum]. fold (reduced d).
      destruct (Z.ltb_spec (reduced d) (_minimum s));
        destruct (Z.eqb_spec (_minimum s) 0); cbn [orb]; lia. }
    destruct (IH (AddData d s)) as (Hle & Hall & Hin);
      [rewrite Hmin; lia | exact (Forall_inv_tail Hnz) |].
    rewrite Hmin in Hle, Hin.
    set (m := _minimum (AddDataList l (AddData d s))) in *.
    repeat split; try lia.
    + constructor; [lia | exact Hall].
    + cbn [map In].
      destruct Hin as [Hm|Hin]; [|right; right; exact Hin].
      destruct (Z.min_spec (reduced d) (_minimum s)) as [[_ E]|[_ E]];
        rewrite E in Hm; [right; left; symmetry; exact Hm | left; exact Hm].
Qed.

(** X4.  When no stored delay is 0, the minimum is the true minimum of
    the stored delays. *)
Theorem AddDataList_minimum_nonzero (d : Z) (delays : list Z) :
  Forall (fun x => reduced x <> 0) (d :: delays) ->
  let m := _minimum (AddDataList (d :: delays) Reset) in
  Forall (fun x => m <= reduced x) (d :: delays) /\
  In m (map reduced (d :: delays)).
Proof.
  intros Hnz. cbv zeta.
  change (AddDataList (d :: delays) Reset) with (AddDataList delays (AddData d Reset)).
  pose proof (Forall_inv Hnz) as Hd. cbv beta in Hd.
  pose proof (delay_reduced d) as Hr. fold (reduced d) in Hr.
  assert (Hfirst : _minimum (AddData d Reset) = reduced d).
  { cbn [AddData _minimum Reset]. change (0 =? 0) with true.
    rewrite orb_true_r. reflexivity. }
  destruct (AddDataList_minimum_from delays (AddData d Reset)) as (Hle & Hall & Hin);
    [rewrite Hfirst; lia | exact (Forall_inv_tail Hnz) |].
  rewrite Hfirst in Hle, Hin.
  split.
  - constructor; [lia | exact Hall].
  - cbn [map In]. destruct Hin as [Hm|Hin]; [left; symmetry; exact Hm | right; exact Hin].
Qed.

Lemma AddDataList_minimum_nonzero_witness :
  Forall (fun x => reduced x <> 0) [1000300; 50; 7000120] /\
  let m := _minimum (AddDataList [1000300; 50; 7000120] Reset) in
  Forall (fun x => m <= reduced x) [1000300; 50; 7000120] /\
  In m (map reduced [1000300; 50; 7000120]).
Proof.
  assert (H : Forall (fun x => reduced x <> 0) [1000300; 50; 7000120]).
  { repeat (apply Forall_cons; [vm_compute; discriminate|]). apply Forall_nil. }
  split; [exact H|].
  exact (AddDataList_minimum_nonzero 1000300 [50; 7000120] H).
Defined.

Lemma AddData_min_le_max (s : EventStatistic) (d : Z) :
  0 <= _minimum s <= _maximum s ->
  0 <= _minimum (AddData d s) <= _maximum (AddData d s).
Proof.
  intros H. pose proof (delay_reduced d) as Hr.
  cbn [AddData _minimum _maximum].
  destruct (Z.ltb_spec (d mod microsecondsInSecond) (_minimum s));
    destruct (Z.eqb_spec (_minimum s) 0);
    destruct (Z.gtb_spec (d mod microsecondsInSecond) (_maximum s));
    cbn [orb]; lia.
Qed.

Lemma AddDataList_range_from (l : list Z) :
  forall s : EventStatistic,
    0 <= _minimum s <= _maximum s -> _maximum s < microsecondsInSecond ->
    0 <= _minimum (AddDataList l s) <= _maximum (AddDataList l s) /\
    _maximum (AddDataList l s) < microsecondsInSecond.
Proof.
  induction l as [|d l IH]; intros s Hmm Hmax; [split; assumption|].
  change (AddDataList (d :: l) s) with (AddDataList l (AddData d s)).
  pose proof (AddData_min_le_max s d Hmm) as H1.
  destruct (AddData_min_max_range s d) as [_ H2]; [lia | lia |].
  apply IH; [exact H1 | lia].
Qed.

(** X5.  After any sequence of [AddData] calls on a fresh histogram the
    minimum and the maximum satisfy 0 <= min <= max < 1,000,000, so the
    range [GetFullReport] walks is inside the histogram and not
    reversed; [Calc] does not change it. *)
Theorem AddDataList_min_max (delays : list Z) :
  let s := AddDataList delays Reset in
  0 <= GetMinimun s <= _maximum s /\ _maximum s < microsecondsInSecond /\
  GetMinimun (Calc s) = GetMinimun s /\ _maximum (Calc s) = _maximum s.
Proof.
  cbv zeta.
  destruct (AddDataList_range_from delays Reset) as [H1 H2];
    [cbn; lia | reflexivity |].
  repeat split; try apply H1; exact H2.
Qed.

(** X6.  A stored delay of 0 does not stay the minimum: whatever was
    recorded before, after a delay stored as 0 the next insert becomes the
    minimum, however large it is. *)
Theorem AddData_after_zero (delays : list Z) (z d : Z) :
  reduced z = 0 ->
  GetMinimun (AddDataList (delays ++ [z; d]) Reset) = reduced d.
Proof.
  intros Hz. rewrite AddDataList_app.
  destruct (AddDataList_range_from delays Reset) as [H1 _];
    [cbn; lia | reflexivity |].
  set (s := AddDataList delays Reset) in *.
  change (AddDataList [z; d] s) with (AddData d (AddData z s)).
  assert (H0 : _minimum (AddData z s) = 0).
  { cbn [AddData _minimum]. fold (reduced z). rewrite Hz.
    destruct (Z.ltb_spec 0 (_minimum s)); destruct (Z.eqb_spec (_minimum s) 0);
      cbn [orb]; lia. }
  unfold GetMinimun. cbn [AddData _minimum] in *. fold (reduced d).
  rewrite H0. rewrite orb_true_r. reflexivity.
Qed.

Lemma AddData_after_zero_witness :
  reduced 3000000 = 0 /\
  GetMinimun (AddDataList ([40; 90] ++ [3000000; 999999]) Reset) = reduced 999999.
Proof.
  split.
  - reflexivity.
  - apply (AddData_after_zero [40; 90] 3000000 999999). reflexivity.
Defined.

(** ** [Calc]: what the summary can hold *)

Lemma Calc_update_kept (s : EventStatistic) (bound v0 : Z)
      (local : Flt.float) (denom : Z) (target : Flt.double) (k out : Z) :
  kept_or_bucket s bound v0 out ->
  0 <= k < bound -> _histogram s k <> 0 ->
  kept_or_bucket s bound v0
                 (fst (Calc_update local denom target k (_histogram s k) out)).
Proof.
  intros Hout Hk Hne. unfold Calc_update.
  destruct (Flt.ratio_below local denom target); cbn [fst].
  - right. split; assumption.
  - exact Hout.
Qed.

Lemma Calc_body_values (s : EventStatistic) (k : Z) (st : CalcOut * CalcLocals) :
  0 <= k < microsecondsInSecond ->
  Calc_values_inv s st -> Calc_values_inv s (Calc_body s k st).
Proof.
  intros Hk (Hm & H1 & H2 & H3). destruct st as [o l]. cbn [fst] in *.
  unfold Calc_body.
  destruct (Z.eqb_spec (_histogram s k) 0) as [|Hne];
    [repeat split; assumption|].
  pose proof (Calc_update_kept s _ _ (local_median_counter l) (_total_counter s)
                               Flt.d50_0 k _ Hm Hk Hne) as Gm.
  destruct (Calc_update (local_median_counter l) (_total_counter s) Flt.d50_0 k
                        (_histogram s k) (o_median o)) as [med lmed].
  assert (G1 : kept_or_bucket s 122 (_122us_90_0_percentel s)
                 (fst (if k <? 122
                       then Calc_update (local_122us_counter l) (_below_122us_counter s)
                                        Flt.d90_0 k (_histogram s k)
                                        (o_122us_90_0_percentel o)
                       else (o_122us_90_0_percentel o, local_122us_counter l)))).
  { destruct (Z.ltb_spec k 122); [|exact H1].
    apply Calc_update_kept; [exact H1 | lia | exact Hne]. }
  destruct (if k <? 122 then _ else _) as [p90 l122].
  assert (G2 : kept_or_bucket s 140 (_140us_99_0_percentel s)
                 (fst (if k <? 140
                       then Calc_update (local_140us_counter l) (_below_140us_counter s)
                                        Flt.d99_0 k (_histogram s k)
                                        (o_140us_99_0_percentel o)
                       else (o_140us_99_0_percentel o, local_140us_counter l)))).
  { destruct (Z.ltb_spec k 140); [|exact H2].
    apply Calc_update_kept; [exact H2 | lia | exact Hne]. }
  destruct (if k <? 140 then _ else _) as [p99 l140].
  assert (G3 : kept_or_bucket s 145 (_145us_99_9_percentel s)
                 (fst (if k <? 145
                       then Calc_update (local_145us_counter l) (_below_145us_counter s)
                                        Flt.d99_9 k (_histogram s k)
                                        (o_145us_99_9_percentel o)
                       else (o_145us_99_9_percentel o, local_145us_counter l)))).
  { destruct (Z.ltb_spec k 145); [|exact H3].
    apply Calc_update_kept; [exact H3 | lia | exact Hne]. }
  destruct (if k <? 145 then _ else _) as [p999 l145].
  cbn [fst] in *. repeat split; assumption.
Qed.

(** X7.  Whatever the state, each of the four values [Calc] leaves is
    either the value the field held before or a delay whose bucket is not
    empty and which lies below the bound of that value (1,000,000 for the
    median, 122, 140 and 145 for the percentiles). *)
Theorem Calc_values (s : EventStatistic) :
  kept_or_bucket s microsecondsInSecond (GetMedian s) (GetMedian (Calc s)) /\
  kept_or_bucket s 122 (Get122us90Percentel s) (Get122us90Percentel (Calc s)) /\
  kept_or_bucket s 140 (Get140us99Percentel s) (Get140us99Percentel (Calc s)) /\
  kept_or_bucket s 145 (Get145us999Percentel s) (Get145us999Percentel (Calc s)).
Proof.
  assert (H : Calc_values_inv s (Calc_loop s 0 microsecondsInSecond (Calc_init s))).
  { unfold Calc_loop. apply for_range_invariant.
    - lia.
    - intros k a Hk Ha. apply Calc_body_values; assumption.
    - repeat split; left; reflexivity. }
  exact H.
Qed.

(** With a zero denominator and a zero running count the quotient is
    0/0, a NaN, and the comparison is false. *)
Lemma Calc_update_zero_denominator (target : Flt.double) (k count out : Z) :
  Calc_update Flt.zero 0 target k count out = (out, Flt.zero).
Proof. reflexivity. Qed.

Lemma Calc_body_slot (s : EventStatistic) (sl : slot) (k : Z) (st : CalcOut * CalcLocals) :
  slot_denominator sl s = 0 ->
  Calc_slot_inv s sl st -> Calc_slot_inv s sl (Calc_body s k st).
Proof.
  intros Hden Hinv. destruct st as [o l]. unfold Calc_body.
  destruct (_histogram s k =? 0); [exact Hinv|].
  destruct sl; cbn [slot_denominator Calc_slot_inv fst snd] in *;
    destruct Hinv as [Ho Hl]; rewrite Hden, Hl, ?Calc_update_zero_denominator;
    repeat match goal with
           | |- context [Calc_update ?a ?b ?c ?d ?e ?f] =>
               destruct (Calc_update a b c d e f)
           | |- context [if ?b then _ else _] => destruct b
           end; cbn [fst snd o_median o_122us_90_0_percentel o_140us_99_0_percentel
                     o_145us_99_9_percentel local_median_counter local_122us_counter
                     local_140us_counter local_145us_counter];
    split; assumption || reflexivity.
Qed.

(** X8.  A value whose denominator is 0 is left as it was: with no sample
    counted below 122 the 90% value is not assigned (and likewise the
    median with a total count of 0, the 99% value with no sample below
    140, the 99.9% value with none below 145), whatever the histogram
    holds. *)
Theorem Calc_zero_denominator (sl : slot) (s : EventStatistic) :
  slot_denominator sl s = 0 ->
  slot_value sl (Calc s) = slot_value sl s.
Proof.
  intros Hden.
  assert (H : Calc_slot_inv s sl (Calc_loop s 0 microsecondsInSecond (Calc_init s))).
  { unfold Calc_loop. apply for_range_invariant.
    - lia.
    - intros k a _ Ha. apply Calc_body_slot; assumption.
    - destruct sl; split; reflexivity. }
  destruct sl; destruct H as [H _]; exact H.
Qed.

Lemma Calc_zero_denominator_witness :
  slot_denominator P90_under_122 (AddDataList [130; 900000] Reset) = 0 /\
  slot_value P90_under_122 (Calc (AddDataList [130; 900000] Reset))
  = slot_value P90_under_122 (AddDataList [130; 900000] Reset).
Proof.
  split.
  - reflexivity.
  - apply (Calc_zero_denominator P90_under_122 (AddDataList [130; 900000] Reset)).
    reflexivity.
Defined.

Lemma Calc_update_rerun (vF : Z) (local : Flt.float) (denom : Z) (target : Flt.double)
      (k count out1 out2 : Z) :
  out2 = out1 \/ out2 = vF ->
  snd (Calc_update local denom target k count out1)
  = snd (Calc_update local denom target k count out2) /\
  (fst (Calc_update local denom target k count out2)
   = fst (Calc_update local denom target k count out1) \/
   fst (Calc_update local denom target k count out2) = vF).
Proof.
  intros H. unfold Calc_update.
  destruct (Flt.ratio_below local denom target); cbn [fst snd].
  - split; [reflexivity | left; reflexivity].
  - split; [reflexivity | exact H].
Qed.

Lemma Calc_body_rerun (s : EventStatistic) (F : CalcOut) (k : Z)
      (a b : CalcOut * CalcLocals) :
  Calc_rerun_inv F a b ->
  Calc_rerun_inv F (Calc_body s k a) (Calc_body (Calc_store s F) k b).
Proof.
  intros (Hl & Hm & H1 & H2 & H3).
  destruct a as [o1 l1], b as [o2 l2]. cbn [fst snd] in *. subst l2.
  unfold Calc_body.
  cbn [Calc_store _histogram _total_counter _below_122us_counter
                  _below_140us_counter _below_145us_counter].
  destruct (_histogram s k =? 0); [repeat split; assumption|].
  pose proof (Calc_update_rerun _ (local_median_counter l1) (_total_counter s)
                                Flt.d50_0 k (_histogram s k) _ _ Hm) as Gm.
  pose proof (Calc_update_rerun _ (local_122us_counter l1) (_below_122us_counter s)
                                Flt.d90_0 k (_histogram s k) _ _ H1) as G1.
  pose proof (Calc_update_rerun _ (local_140us_counter l1) (_below_140us_counter s)
                                Flt.d99_0 k (_histogram s k) _ _ H2) as G2.
  pose proof (Calc_update_rerun _ (local_145us_counter l1) (_below_145us_counter s)
                                Flt.d99_9 k (_histogram s k) _ _ H3) as G3.
  repeat match goal with
         | H : context [Calc_update ?a ?b ?c ?d ?e ?f] |- _ =>
             destruct (Calc_update a b c d e f)
         end.
  cbn [fst snd] in *.
  destruct Gm as [-> Gm], G1 as [-> G1], G2 as [-> G2], G3 as [-> G3].
  destruct (k <? 122), (k <? 140), (k <? 145); cbn [fst snd];
    repeat split; assumption.
Qed.

Lemma Calc_loop_rerun (s : EventStatistic) (F : CalcOut) (lo hi : Z)
      (a b : CalcOut * CalcLocals) :
  Calc_rerun_inv F a b ->
  Calc_rerun_inv F (Calc_loop s lo hi a) (Calc_loop (Calc_store s F) lo hi b).
Proof.
  intros Hab. unfold Calc_loop.
  apply (for_range_related (Calc_rerun_inv F)); [lia | | exact Hab].
  intros k x y _ Hxy. apply Calc_body_rerun. exact Hxy.
Qed.

Lemma Calc_init_rerun (s : EventStatistic) (F : CalcOut) :
  Calc_rerun_inv F (Calc_init s) (Calc_init (Calc_store s F)).
Proof.
  unfold Calc_rerun_inv, Calc_init, Calc_store.
  cbn [fst snd o_median o_122us_90_0_percentel o_140us_99_0_percentel
           o_145us_99_9_percentel _median _122us_90_0_percentel
           _140us_99_0_percentel _145us_99_9_percentel].
  split; [reflexivity|]. repeat split; right; reflexivity.
Qed.

(** X9.  Recomputing twice is recomputing once: [Calc] applied to a state
    it has just computed leaves every field as it is. *)
Theorem Calc_idempotent (s : EventStatistic) : Calc (Calc s) = Calc s.
Proof.
  unfold Calc at 2 3.
  remember (Calc_loop s 0 microsecondsInSecond (Calc_init s)) as r1 eqn:E1.
  unfold Calc.
  remember (Calc_loop (Calc_store s (fst r1)) 0 microsecondsInSecond
                      (Calc_init (Calc_store s (fst r1)))) as r2 eqn:E2.
  pose proof (Calc_loop_rerun s (fst r1) 0 microsecondsInSecond _ _
                              (Calc_init_rerun s (fst r1))) as H.
  rewrite <- E1, <- E2 in H.
  destruct H as (_ & Hm & H1 & H2 & H3).
  assert (Em : o_median (fst r2) = o_median (fst r1)) by (destruct Hm; assumption).
  assert (E3 : o_122us_90_0_percentel (fst r2) = o_122us_90_0_percentel (fst r1))
    by (destruct H1; assumption).
  assert (E4 : o_140us_99_0_percentel (fst r2) = o_140us_99_0_percentel (fst r1))
    by (destruct H2; assumption).
  assert (E5 : o_145us_99_9_percentel (fst r2) = o_145us_99_9_percentel (fst r1))
    by (destruct H3; assumption).
  unfold Calc_store.
  cbn [_minimum _maximum _total_counter _below_122us_counter _below_140us_counter
                _below_145us_counter _histogram].
  rewrite Em, E3, E4, E5. reflexivity.
Qed.

(** ** [GetFullReport] *)

Lemma for_range_fixed {A} (body : Z -> A -> A) (lo hi step : Z) (a : A) :
  0 <= step ->
  (forall k, lo <= k < hi -> body k a = a) ->
  for_range lo hi step body a = a.
Proof.
  intros Hstep Hbody.
  apply (for_range_invariant (fun x => x = a)); [exact Hstep | | reflexivity].
  intros k x Hk ->. apply Hbody. exact Hk.
Qed.

(** X10.  For an event whose buckets are all empty, whatever its minimum
    and maximum, [GetFullReport] prints the column header and no row. *)
Theorem GetFullReport_empty (show_float : Flt.float -> string) (s : EventStatistic) :
  (forall i, _histogram s i = 0) ->
  GetFullReport show_float s
  = ("ExecTime" ++ tab ++ "TransNo" ++ tab ++ "Weight,%" ++ tab ++ "Percent" ++ endl)%string.
Proof.
  intros Hz. unfold GetFullReport. cbv zeta.
  rewrite for_range_fixed; [reflexivity | lia |].
  intros k _. unfold GetFullReport_body.
  rewrite for_range_fixed; [reflexivity | lia |].
  intros i _. rewrite Hz. reflexivity.
Qed.

Lemma GetFullReport_empty_witness :
  (forall i, _histogram (Calc Reset) i = 0) /\
  GetFullReport (fun _ => EmptyString) (Calc Reset)
  = ("ExecTime" ++ tab ++ "TransNo" ++ tab ++ "Weight,%" ++ tab ++ "Percent" ++ endl)%string.
Proof.
  split.
  - intros i. reflexivity.
  - apply (GetFullReport_empty (fun _ => EmptyString) (Calc Reset)).
    intros i. reflexivity.
Defined.

(** ** The registry: ordered keys, lookups after updates *)

Lemma ascii_compare_refl (a : ascii) : Ascii.compare a a = Eq.
Proof. unfold Ascii.compare. apply N.compare_refl. Qed.

Lemma compare_Lt_trans (a : string) :
  forall b c, String.compare a b = Lt -> String.compare b c = Lt ->
              String.compare a c = Lt.
Proof.
  induction a as [|x a IH]; intros [|y b] [|z c]; cbn [String.compare];
    try discriminate; try reflexivity.
  destruct (Ascii.compare x y) eqn:Exy; try discriminate;
    destruct (Ascii.compare y z) eqn:Eyz; try discriminate; intros Hab Hbc.
  - apply Ascii.compare_eq_iff in Exy, Eyz. subst.
    rewrite ascii_compare_refl. apply (IH b c); assumption.
  - apply Ascii.compare_eq_iff in Exy. subst. rewrite Eyz. reflexivity.
  - apply Ascii.compare_eq_iff in Eyz. subst. rewrite Exy. reflexivity.
  - unfold Ascii.compare in *. rewrite N.compare_lt_iff in *.
    assert (H : (N_of_ascii x < N_of_ascii z)%N) by (eapply N.lt_trans; eassumption).
    apply N.compare_lt_iff in H. rewrite H. reflexivity.
Qed.

Lemma compare_Gt_Lt (a b : string) :
  String.compare a b = Gt -> String.compare b a = Lt.
Proof.
  intros H. rewrite String.compare_antisym, H. reflexivity.
Qed.

Lemma compare_Lt_Gt (a b : string) :
  String.compare a b = Lt -> String.compare b a = Gt.
Proof.
  intros H. rewrite String.compare_antisym, H. reflexivity.
Qed.

Lemma insert_Forall (P : Event * EventStatistic -> Prop) k v m :
  P (k, v) -> Forall P m -> Forall P (map_insert k v m).
Proof.
  intros Hk. induction 1 as [|[k' w] m Hp Hm IH]; cbn [map_insert].
  - constructor; [exact Hk | constructor].
  - destruct (String.compare k k').
    + constructor; assumption.
    + constructor; [exact Hk | constructor; assumption].
    + constructor; assumption.
Qed.

Lemma adjust_Forall (Q : Event -> Prop) k f m :
  Forall (fun p => Q (fst p)) m -> Forall (fun p => Q (fst p)) (map_adjust k f m).
Proof.
  induction 1 as [|[k' w] m Hp Hm IH]; cbn [map_adjust]; [constructor|].
  destruct (String.eqb k k'); constructor; assumption.
Qed.

Lemma insert_ascending k v m :
  keys_ascending m -> keys_ascending (map_insert k v m).
Proof.
  induction m as [|[k' w] m IH]; cbn [map_insert keys_ascending].
  - intros _. split; [constructor | exact I].
  - intros [Hall Hm]. destruct (String.compare k k') eqn:Hc.
    + split; assumption.
    + cbn [keys_ascending]. split; [|split; assumption].
      constructor; [exact Hc|].
      eapply Forall_impl; [|exact Hall]. cbv beta. intros p Hp.
      eapply compare_Lt_trans; eassumption.
    + cbn [keys_ascending]. split; [|apply IH; exact Hm].
      apply insert_Forall; [|exact Hall].
      cbn [fst]. apply compare_Gt_Lt. exact Hc.
Qed.

Lemma adjust_ascending k f m :
  keys_ascending m -> keys_ascending (map_adjust k f m).
Proof.
  induction m as [|[k' w] m IH]; cbn [map_adjust keys_ascending]; [trivial|].
  intros [Hall Hm]. destruct (String.eqb k k'); cbn [keys_ascending].
  - split; assumption.
  - split; [|apply IH; exact Hm].
    apply (adjust_Forall (fun x => String.compare k' x = Lt)). exact Hall.
Qed.

(** In an ordered map, a key that is found sits where the ordered search
    ends. *)
Lemma find_at_key k v m :
  keys_ascending m -> map_find k m = Some v -> at_key k v m.
Proof.
  induction m as [|[k' w] m IH]; cbn [map_find keys_ascending]; [discriminate|].
  intros [Hall Hm] Hfind.
  destruct (String.eqb_spec k k') as [->|Hne].
  - injection Hfind as ->. exists [], m. split; [reflexivity | constructor].
  - destruct (IH Hm Hfind) as (pre & post & -> & Hpre).
    exists ((k', w) :: pre), post. split; [reflexivity|].
    constructor; [|exact Hpre]. cbn [fst].
    apply compare_Lt_Gt.
    rewrite Forall_forall in Hall. apply (Hall (k, v)). apply in_elt.
Qed.

Lemma find_insert_other k k' v m :
  k' <> k -> map_find k' (map_insert k v m) = map_find k' m.
Proof.
  intros Hne. induction m as [|[k0 w] m IH]; cbn [map_insert map_find].
  - destruct (String.eqb_spec k' k); [contradiction | reflexivity].
  - destruct (String.compare k k0); cbn [map_find].
    + reflexivity.
    + destruct (String.eqb_spec k' k); [contradiction | reflexivity].
    + rewrite IH. reflexivity.
Qed.

Lemma find_adjust_other k k' f m :
  k' <> k -> map_find k' (map_adjust k f m) = map_find k' m.
Proof.
  intros Hne. induction m as [|[k0 w] m IH]; cbn [map_adjust map_find]; [reflexivity|].
  destruct (String.eqb_spec k k0) as [->|Hk]; cbn [map_find].
  - destruct (String.eqb_spec k' k0); [contradiction | reflexivity].
  - rewrite IH. reflexivity.
Qed.

(** After [insert], the key holds what [m[k]] refers to. *)
Lemma insert_at_entry k m :
  keys_ascending m -> at_key k (entry k m) (map_insert k Reset m).
Proof.
  intros Hm. unfold entry. destruct (map_find k m) as [v|] eqn:Hfind.
  - pose proof (find_at_key _ _ _ Hm Hfind) as Hat.
    rewrite (at_key_insert _ _ _ _ Hat). exact Hat.
  - apply insert_absent_at_key. exact Hfind.
Qed.

Lemma AddEvent_events (e : Event) (stat : Statistic) :
  keys_ascending (_events stat) ->
  _events (AddEvent e stat) = map_insert e Reset (_events stat).
Proof.
  intros Hm. unfold AddEvent. rewrite map_count_find.
  destruct (map_find e (_events stat)) as [v|] eqn:Hfind; cbn [Z.eqb _events].
  - pose proof (find_at_key _ _ _ Hm Hfind) as Hat.
    rewrite (at_key_insert _ _ _ _ Hat). reflexivity.
  - reflexivity.
Qed.

(** A member function called through [_events[event]] after [AddEvent]. *)
Lemma subscript_apply_after_AddEvent (e : Event) (f : EventStatistic -> EventStatistic)
      (stat : Statistic) :
  keys_ascending (_events stat) ->
  map_subscript_apply e f (_events (AddEvent e stat))
  = map_adjust e f (map_insert e Reset (_events stat)) /\
  at_key e (f (entry e (_events stat)))
         (map_adjust e f (map_insert e Reset (_events stat))).
Proof.
  intros Hm. pose proof (insert_at_entry e _ Hm) as Hat.
  rewrite (AddEvent_events _ _ Hm). unfold map_subscript_apply.
  rewrite (at_key_insert _ _ _ _ Hat).
  split; [reflexivity | apply at_key_adjust; exact Hat].
Qed.

Section FullStatisticShape.

Variable show_float : Flt.float -> string.

Lemma GetFullStatistic_loop_events (m : EventMap) :
  forall result,
    fst (GetFullStatistic_loop show_float m result)
    = map (fun p => (fst p, Calc (snd p))) m.
Proof.
  induction m as [|[k v] m IH]; intros result; cbn [GetFullStatistic_loop map];
    [reflexivity|].
  specialize (IH ((result ++ k ++ " " ++ GetReport (Calc v) ++ endl)
                    ++ GetFullReport show_float (Calc v) ++ endl)%string).
  destruct (GetFullStatistic_loop show_float m _) as [m1 r1].
  cbn [fst snd] in *. rewrite IH. reflexivity.
Qed.

Lemma GetFullStatistic_loop_blocks (m : EventMap) :
  snd (GetFullStatistic_loop show_float m EmptyString)
  = fold_right append EmptyString (map (dump_block show_float) m).
Proof.
  induction m as [|[k v] m IH]; cbn [GetFullStatistic_loop map fold_right];
    [reflexivity|].
  pose proof (GetFullStatistic_loop_result show_float m
                ((EmptyString ++ k ++ " " ++ GetReport (Calc v) ++ endl)
                   ++ GetFullReport show_float (Calc v) ++ endl)%string) as H.
  destruct (GetFullStatistic_loop show_float m
              ((EmptyString ++ k ++ " " ++ GetReport (Calc v) ++ endl)
                 ++ GetFullReport show_float (Calc v) ++ endl)%string) as [m1 r1].
  cbn [snd] in *. rewrite H, IH. reflexivity.
Qed.

End FullStatisticShape.

Lemma map_Calc_ascending (m : EventMap) :
  keys_ascending m -> keys_ascending (map (fun p => (fst p, Calc (snd p))) m).
Proof.
  induction m as [|[k v] m IH]; cbn [map keys_ascending fst snd]; [trivial|].
  intros [Hall Hm]. split; [|apply IH; exact Hm].
  rewrite Forall_map. exact Hall.
Qed.

Lemma AddEventData_ascending (e : Event) (d : Z) (stat : Statistic) :
  keys_ascending (_events stat) -> keys_ascending (_events (AddEventData e d stat)).
Proof.
  intros Hm. unfold AddEventData. cbn [_events].
  destruct (subscript_apply_after_AddEvent e (AddData d) stat Hm) as [-> _].
  apply adjust_ascending. apply insert_ascending. exact Hm.
Qed.

Lemma AddEventData_find (e : Event) (d : Z) (stat : Statistic) :
  keys_ascending (_events stat) ->
  map_find e (_events (AddEventData e d stat))
  = Some (AddData d (entry e (_events stat))) /\
  forall e', e' <> e ->
    map_find e' (_events (AddEventData e d stat)) = map_find e' (_events stat).
Proof.
  intros Hm. unfold AddEventData. cbn [_events].
  destruct (subscript_apply_after_AddEvent e (AddData d) stat Hm) as [-> Hat].
  split.
  - apply at_key_find. exact Hat.
  - intros e' Hne. rewrite find_adjust_other, find_insert_other by exact Hne.
    reflexivity.
Qed.

(** X11.  Every operation of [Statistic] keeps the keys of the registry
    strictly ascending, so each event has one entry and [GetFullStatistic]
    lists the events in ascending byte order of their names. *)
Theorem Statistic_keys_ascending
        (show_float : Flt.float -> string) (e : Event) (d : Z) (stat : Statistic) :
  keys_ascending (_events stat) ->
  keys_ascending (_events (AddEvent e stat)) /\
  keys_ascending (_events (AddEventData e d stat)) /\
  keys_ascending (_events (fst (GetEventStatistic e stat))) /\
  keys_ascending (_events (fst (GetFullStatistic show_float stat))).
Proof.
  intros Hm.
  assert (Hins : keys_ascending (map_insert e Reset (_events stat)))
    by (apply insert_ascending; exact Hm).
  repeat split.
  - rewrite AddEvent_events by exact Hm. exact Hins.
  - apply AddEventData_ascending. exact Hm.
  - unfold GetEventStatistic. cbn [fst _events].
    destruct (subscript_apply_after_AddEvent e Calc stat Hm) as [-> _].
    apply adjust_ascending. exact Hins.
  - unfold GetFullStatistic.
    pose proof (GetFullStatistic_loop_events show_float (_events stat) EmptyString) as H.
    destruct (GetFullStatistic_loop show_float (_events stat) EmptyString) as [m1 r1].
    cbn [fst _events] in *. rewrite H. apply map_Calc_ascending. exact Hm.
Qed.

Lemma Statistic_keys_ascending_witness :
  keys_ascending (_events (AddEventData "b" 7 stats_init)) /\
  keys_ascending (_events (AddEvent "a" (AddEventData "b" 7 stats_init))) /\
  keys_ascending (_events (AddEventData "a" 9 (AddEventData "b" 7 stats_init))) /\
  keys_ascending (_events (fst (GetEventStatistic "a" (AddEventData "b" 7 stats_init)))) /\
  keys_ascending
    (_events (fst (GetFullStatistic (fun _ => EmptyString) (AddEventData "b" 7 stats_init)))).
Proof.
  assert (H : keys_ascending (_events (AddEventData "b" 7 stats_init))).
  { cbn. split; [constructor | exact I]. }
  split; [exact H|].
  exact (Statistic_keys_ascending (fun _ => EmptyString) "a" 9 _ H).
Defined.

(** X12.  In an ordered registry, [AddEventData] applies [AddData] to the
    statistics of its event, a fresh one when the event is new, and leaves
    the entry of every other event as it is. *)
Theorem AddEventData_lookup (e : Event) (d : Z) (stat : Statistic) :
  keys_ascending (_events stat) ->
  map_find e (_events (AddEventData e d stat))
  = Some (AddData d (entry e (_events stat))) /\
  forall e', e' <> e ->
    map_find e' (_events (AddEventData e d stat)) = map_find e' (_events stat).
Proof.
  intros Hm. apply AddEventData_find. exact Hm.
Qed.

Lemma AddEventData_lookup_witness :
  keys_ascending (_events (AddEventData "b" 7 stats_init)) /\
  map_find "b" (_events (AddEventData "b" 1000009 (AddEventData "b" 7 stats_init)))
  = Some (AddData 1000009 (entry "b" (_events (AddEventData "b" 7 stats_init)))) /\
  forall e', e' <> "b"%string ->
    map_find e' (_events (AddEventData "b" 1000009 (AddEventData "b" 7 stats_init)))
    = map_find e' (_events (AddEventData "b" 7 stats_init)).
Proof.
  assert (H : keys_ascending (_events (AddEventData "b" 7 stats_init))).
  { cbn. split; [constructor | exact I]. }
  split; [exact H|].
  exact (AddEventData_lookup "b" 1000009 _ H).
Defined.

(** X13.  In an ordered registry, a query answers with the name, a space,
    the report of the event's recomputed statistics and a newline; it
    replaces the entry of the event by its recomputed statistics (a fresh
    one for a new name) and leaves every other entry as it is.  No query
    changes a counter or a bucket. *)
Theorem GetEventStatistic_effect (e : Event) (stat : Statistic) :
  keys_ascending (_events stat) ->
  let v := Calc (entry e (_events stat)) in
  snd (GetEventStatistic e stat) = (e ++ " " ++ GetReport v ++ endl)%string /\
  map_find e (_events (fst (GetEventStatistic e stat))) = Some v /\
  _histogram v = _histogram (entry e (_events stat)) /\
  _total_counter v = _total_counter (entry e (_events stat)) /\
  forall e', e' <> e ->
    map_find e' (_events (fst (GetEventStatistic e stat))) = map_find e' (_events stat).
Proof.
  intros Hm v. unfold GetEventStatistic. cbn [fst snd _events].
  destruct (subscript_apply_after_AddEvent e Calc stat Hm) as [-> Hat].
  fold v in Hat. unfold map_subscript_get.
  rewrite (at_key_insert _ _ _ _ Hat), (at_key_find _ _ _ Hat).
  repeat split.
  - apply append_assoc.
  - intros e' Hne. rewrite find_adjust_other, find_insert_other by exact Hne.
    reflexivity.
Qed.

Lemma GetEventStatistic_effect_witness :
  keys_ascending (_events (AddEventData "b" 7 stats_init)) /\
  let stat := AddEventData "b" 7 stats_init in
  let v := Calc (entry "b" (_events stat)) in
  snd (GetEventStatistic "b" stat) = ("b" ++ " " ++ GetReport v ++ endl)%string /\
  map_find "b" (_events (fst (GetEventStatistic "b" stat))) = Some v /\
  _histogram v = _histogram (entry "b" (_events stat)) /\
  _total_counter v = _total_counter (entry "b" (_events stat)) /\
  forall e', e' <> "b"%string ->
    map_find e' (_events (fst (GetEventStatistic "b" stat))) = map_find e' (_events stat).
Proof.
  assert (H : keys_ascending (_events (AddEventData "b" 7 stats_init))).
  { cbn. split; [constructor | exact I]. }
  split; [exact H|].
  exact (GetEventStatistic_effect "b" _ H).
Defined.

(** X14.  [GetFullStatistic] recomputes every entry, keeps the keys and
    their order, and prints one block per entry in that order: the name, a
    space, the report and a newline, then the full report and a newline. *)
Theorem GetFullStatistic_shape (show_float : Flt.float -> string) (stat : Statistic) :
  GetFullStatistic show_float stat
  = ({| _events := map (fun p => (fst p, Calc (snd p))) (_events stat) |},
     fold_right append EmptyString (map (dump_block show_float) (_events stat))).
Proof.
  unfold GetFullStatistic.
  pose proof (GetFullStatistic_loop_events show_float (_events stat) EmptyString) as H1.
  pose proof (GetFullStatistic_loop_blocks show_float (_events stat)) as H2.
  destruct (GetFullStatistic_loop show_float (_events stat) EmptyString) as [m1 r1].
  cbn [fst snd] in *. rewrite H1, H2. reflexivity.
Qed.

Lemma delays_of_cons (e e0 : Event) (d0 : Z) (tr : list (Event * Z)) :
  delays_of e ((e0, d0) :: tr)
  = if String.eqb e0 e then d0 :: delays_of e tr else delays_of e tr.
Proof.
  unfold delays_of. cbn [filter fst]. destruct (String.eqb e0 e); reflexivity.
Qed.

Lemma replay_lookup (tr : list (Event * Z)) (e : Event) :
  forall stat : Statistic,
    keys_ascending (_events stat) ->
    keys_ascending (_events (replay AddEventData stat tr)) /\
    map_find e (_events (replay AddEventData stat tr))
    = match delays_of e tr with
      | [] => map_find e (_events stat)
      | ds => Some (AddDataList ds (entry e (_events stat)))
      end.
Proof.
  induction tr as [|[e0 d0] tr IH]; intros stat Hm.
  - split; [exact Hm | reflexivity].
  - change (replay AddEventData stat ((e0, d0) :: tr))
      with (replay AddEventData (AddEventData e0 d0 stat) tr).
    pose proof (AddEventData_ascending e0 d0 stat Hm) as Hm1.
    destruct (IH _ Hm1) as [Hm2 Hfind]. split; [exact Hm2|].
    rewrite Hfind, delays_of_cons.
    destruct (AddEventData_find e0 d0 stat Hm) as [Hsame Hother].
    destruct (String.eqb_spec e0 e) as [->|Hne].
    + assert (He : entry e (_events (AddEventData e d0 stat))
                   = AddData d0 (entry e (_events stat)))
        by (unfold entry at 1; rewrite Hsame; reflexivity).
      rewrite He, Hsame.
      destruct (delays_of e tr); reflexivity.
    + assert (Hne' : e <> e0) by congruence.
      assert (He : entry e (_events (AddEventData e0 d0 stat)) = entry e (_events stat))
        by (unfold entry; rewrite (Hother e Hne'); reflexivity).
      rewrite He, (Hother e Hne'). reflexivity.
Qed.

(** X15.  However a call of [MainHandler] ends, in an ordered registry the
    entry of each event afterwards is its entry before with [AddData]
    applied to the delays emitted for that event, in the order emitted (a
    fresh entry for a new event); an event with no emitted pair keeps its
    entry, or stays absent.  Records of one event never touch another. *)
Theorem MainHandler_registry (reads : list (list ascii)) (stat : Statistic) (e : Event) :
  keys_ascending (_events stat) ->
  map_find e (_events (result_sink (MainHandler AddEventData reads stat)))
  = match delays_of e (result_sink (emitted reads)) with
    | [] => map_find e (_events stat)
    | ds => Some (AddDataList ds (entry e (_events stat)))
    end.
Proof.
  intros Hm. rewrite MainHandler_emitted.
  destruct (emitted reads) as [tr|ex tr]; cbn [result_sink];
    apply replay_lookup; exact Hm.
Qed.

Lemma MainHandler_registry_witness :
  let reads := [list_ascii_of_string (wire_record "A" "57" ++ wire_record "B" "8");
                list_ascii_of_string (wire_record "A" "1000003")] in
  keys_ascending (_events stats_init) /\
  map_find "A" (_events (result_sink (MainHandler AddEventData reads stats_init)))
  = match delays_of "A" (result_sink (emitted reads)) with
    | [] => map_find "A" (_events stats_init)
    | ds => Some (AddDataList ds (entry "A" (_events stats_init)))
    end.
Proof.
  cbv zeta. split.
  - exact I.
  - apply (MainHandler_registry _ stats_init "A"). exact I.
Defined.

(** ** The record parser, field by field *)

Lemma isdigit_code (c : ascii) : isdigit c = true -> 48 <= char_code c <= 57.
Proof.
  unfold isdigit. intros H. apply andb_prop in H. destruct H as [H1 H2].
  apply Z.leb_le in H1. apply Z.leb_le in H2. lia.
Qed.

Lemma decimal_value_nonneg (s : string) :
  Forall (fun c => isdigit c = true) (list_ascii_of_string s) ->
  forall acc, 0 <= acc -> 0 <= decimal_value acc s.
Proof.
  induction s as [|c s IH]; cbn [list_ascii_of_string decimal_value]; intros Hd acc Hacc.
  - exact Hacc.
  - pose proof (isdigit_code c (Forall_inv Hd)).
    apply IH; [exact (Forall_inv_tail Hd) | lia].
Qed.

Lemma TAB_not_bracket : Ascii.eqb TAB "]"%char = false.
Proof. reflexivity. Qed.

Section RecordFacts.

Context {S : Type}.
Variable addEventData : Event -> Z -> S -> S.

(** ScanStart: bytes other than the bracket are discarded. *)
Lemma scan_junk (junk : list ascii) (ev a : string) (t : Z) (stat : S) :
  ~ In "]"%char junk ->
  forall rest,
    MainHandler_buf addEventData (junk ++ rest) (Build_Locals ev a 0 t) stat
    = MainHandler_buf addEventData rest (Build_Locals ev a 0 t) stat.
Proof.
  induction junk as [|c junk IH]; intros Hno rest; cbn [app]; [reflexivity|].
  cbn [MainHandler_buf]. unfold MainHandler_byte. cbn [section Z.eqb].
  destruct (Ascii.eqb_spec c "]"%char) as [->|_].
  - exfalso. apply Hno. left. reflexivity.
  - apply IH. intros Hin. apply Hno. right. exact Hin.
Qed.

(** The bracket and the tab after it. *)
Lemma scan_bracket_tab (ev a : string) (t : Z) (stat : S) (rest : list ascii) :
  MainHandler_buf addEventData ("]"%char :: TAB :: rest) (Build_Locals ev a 0 t) stat
  = MainHandler_buf addEventData rest (Build_Locals EmptyString a 2 t) stat.
Proof. reflexivity. Qed.

(** ReadEvent. *)
Lemma scan_event (name : string) :
  tab_free name ->
  forall (ev a : string) (t : Z) (stat : S) (rest : list ascii),
    MainHandler_buf addEventData (list_ascii_of_string name ++ TAB :: rest)
                    (Build_Locals ev a 2 t) stat
    = MainHandler_buf addEventData rest (Build_Locals (ev ++ name) a 3 1) stat.
Proof.
  unfold tab_free.
  induction name as [|c name IH]; intros Hno ev a t stat rest;
    cbn [list_ascii_of_string app MainHandler_buf].
  - unfold MainHandler_byte. cbn [section Z.eqb Pos.eqb].
    rewrite Ascii.eqb_refl. cbn [event avgtsmr section Z.add Pos.add].
    replace (ev ++ EmptyString)%string with ev; [reflexivity|].
    clear. induction ev as [|x ev IHev]; cbn [append]; congruence.
  - unfold MainHandler_byte at 1. cbn [section Z.eqb Pos.eqb].
    destruct (Ascii.eqb_spec c TAB) as [->|_].
    + exfalso. apply Hno. left. reflexivity.
    + cbn [event avgtsmr section tab_counter]. rewrite IH.
      * unfold push_back. rewrite append_assoc. reflexivity.
      * intros Hin. apply Hno. right. exact Hin.
Qed.

(** SkipFillers: one filler field and its tab. *)
Lemma scan_filler (f : string) :
  tab_free f ->
  forall (ev a : string) (t : Z) (stat : S) (rest : list ascii),
    t <> 14 ->
    MainHandler_buf addEventData (list_ascii_of_string f ++ TAB :: rest)
                    (Build_Locals ev a 3 t) stat
    = MainHandler_buf addEventData rest
                      (if t + 1 =? 14 then Build_Locals ev EmptyString 4 (t + 1)
                       else Build_Locals ev a 3 (t + 1)) stat.
Proof.
  unfold tab_free.
  induction f as [|c f IH]; intros Hno ev a t stat rest Ht;
    cbn [list_ascii_of_string app MainHandler_buf].
  - unfold MainHandler_byte. cbn [section Z.eqb Pos.eqb tab_counter].
    rewrite Ascii.eqb_refl.
    destruct (t + 1 =? 14); reflexivity.
  - unfold MainHandler_byte at 1. cbn [section Z.eqb Pos.eqb tab_counter].
    destruct (Ascii.eqb_spec c TAB) as [->|_].
    + exfalso. apply Hno. left. reflexivity.
    + destruct (Z.eqb_spec t 14); [contradiction|].
      cbn [event avgtsmr section]. apply IH; [|exact Ht].
      intros Hin. apply Hno. right. exact Hin.
Qed.

(** SkipFillers: the fillers that remain when the counter is at [t]. *)
Lemma scan_fillers (fs : list string) :
  Forall tab_free fs ->
  forall (ev a : string) (t : Z) (stat : S) (rest : list ascii),
    fs <> [] -> 1 <= t -> t + Z.of_nat (List.length fs) = 14 ->
    MainHandler_buf addEventData (filler_bytes fs ++ rest) (Build_Locals ev a 3 t) stat
    = MainHandler_buf addEventData rest (Build_Locals ev EmptyString 4 14) stat.
Proof.
  induction 1 as [|f fs Hf Hfs IH]; intros ev a t stat rest Hne Ht Hlen;
    [contradiction|].
  unfold filler_bytes. cbn [map List.concat]. fold (filler_bytes fs).
  rewrite <- !app_assoc. cbn [app].
  cbn [List.length] in Hlen. rewrite Nat2Z.inj_succ in Hlen.
  rewrite (scan_filler f Hf) by lia.
  destruct fs as [|f' fs'].
  - cbn [List.length Z.of_nat] in Hlen.
    replace (t + 1) with 14 by lia. reflexivity.
  - destruct (Z.eqb_spec (t + 1) 14) as [E|_].
    + cbn [List.length] in Hlen. lia.
    + apply IH; [discriminate | lia | lia].
Qed.

(** ReadDelay: the digits. *)
Lemma scan_digits (ds : string) :
  Forall (fun c => isdigit c = true) (list_ascii_of_string ds) ->
  forall (ev a : string) (t : Z) (stat : S) (rest : list ascii),
    MainHandler_buf addEventData (list_ascii_of_string ds ++ rest)
                    (Build_Locals ev a 4 t) stat
    = MainHandler_buf addEventData rest (Build_Locals ev (a ++ ds) 4 t) stat.
Proof.
  induction ds as [|c ds IH]; intros Hd ev a t stat rest;
    cbn [list_ascii_of_string app].
  - replace (a ++ EmptyString)%string with a; [reflexivity|].
    clear. induction a as [|x a IHa]; cbn [append]; congruence.
  - cbn [MainHandler_buf]. unfold MainHandler_byte at 1.
    cbn [section Z.eqb Pos.eqb]. rewrite (Forall_inv Hd).
    cbn [event avgtsmr section tab_counter].
    rewrite IH by exact (Forall_inv_tail Hd).
    unfold push_back. rewrite append_assoc. reflexivity.
Qed.

(** ReadDelay: the byte that ends the field. *)
Lemma scan_term (c : ascii) (ev a : string) (t : Z) (stat : S) (rest : list ascii) :
  isdigit c = false ->
  MainHandler_buf addEventData (c :: rest) (Build_Locals ev a 4 t) stat
  = match stoi a with
    | inl e => Thrown e stat
    | inr delay =>
        MainHandler_buf addEventData rest (Build_Locals ev a 0 t)
                        (addEventData ev (u32 delay) stat)
    end.
Proof.
  intros Hc. cbn [MainHandler_buf]. unfold MainHandler_byte.
  cbn [section Z.eqb Pos.eqb]. rewrite Hc.
  cbn [event avgtsmr section tab_counter].
  destruct (stoi a); reflexivity.
Qed.

(** A framed record, from ScanStart to the byte after its delay field. *)
Lemma scan_record (w : wire) (ev a : string) (t : Z) (stat : S) (rest : list ascii) :
  well_framed w ->
  MainHandler_buf addEventData (wire_bytes w ++ rest) (Build_Locals ev a 0 t) stat
  = match stoi (w_digits w) with
    | inl e => Thrown e stat
    | inr delay =>
        MainHandler_buf addEventData rest
                        (Build_Locals (w_event w) (w_digits w) 0 14)
                        (addEventData (w_event w) (u32 delay) stat)
    end.
Proof.
  intros [Hj He Hc Hf Hd Ht]. unfold wire_bytes.
  rewrite <- app_assoc. rewrite scan_junk by exact Hj.
  cbn [app]. rewrite scan_bracket_tab.
  rewrite <- app_assoc. cbn [app]. rewrite (scan_event _ He).
  rewrite <- !app_assoc.
  rewrite (scan_fillers _ Hf);
    [| intros E; rewrite E in Hc; discriminate Hc | lia | rewrite Hc; reflexivity].
  rewrite (scan_digits _ Hd). cbn [app append].
  apply scan_term. exact Ht.
Qed.

End RecordFacts.

Lemma stoi_well_formed (w : wire) :
  well_formed w ->
  stoi (w_digits w) = inr (decimal_value 0 (w_digits w)) /\
  u32 (decimal_value 0 (w_digits w)) = decimal_value 0 (w_digits w).
Proof.
  intros (Hf & Hne & Hmax). split.
  - unfold stoi. destruct (w_digits w) as [|c ds] eqn:E; [contradiction|].
    destruct (Z.gtb_spec (decimal_value 0 (String c ds)) INT_MAX); [lia | reflexivity].
  - apply u32_small.
    pose proof (decimal_value_nonneg _ (wf_digits w Hf) 0 ltac:(lia)).
    unfold INT_MAX in Hmax. lia.
Qed.

(** A stream of well-formed records, then whatever follows. *)
Lemma scan_records (ws : list wire) :
  Forall well_formed ws ->
  forall (more : list ascii) (ev a : string) (t : Z) (tr : list (Event * Z)),
  exists ev' a' t',
    MainHandler_buf emit (stream_bytes ws ++ more) (Build_Locals ev a 0 t) tr
    = MainHandler_buf emit more (Build_Locals ev' a' 0 t') (tr ++ map wire_pair ws).
Proof.
  induction 1 as [|w ws Hw _ IH]; intros more ev a t tr.
  - exists ev, a, t. cbn [stream_bytes map List.concat app].
    rewrite app_nil_r. reflexivity.
  - destruct (IH more (w_event w) (w_digits w) 14
                 (emit (w_event w) (decimal_value 0 (w_digits w)) tr))
      as (ev' & a' & t' & H').
    exists ev', a', t'.
    unfold stream_bytes. cbn [map List.concat]. fold (stream_bytes ws).
    rewrite <- app_assoc.
    rewrite scan_record by (apply Hw).
    destruct (stoi_well_formed w Hw) as [-> ->].
    rewrite H'. unfold emit. rewrite <- app_assoc. reflexivity.
Qed.

(** X16.  A stream of well-formed records (each: bytes without a bracket,
    the bracket, a tab, the event, thirteen filler fields, a delay field
    of digits worth at most 2147483647, a byte that is not a digit),
    followed by bytes without a bracket and delivered in any non-empty
    reads, makes the parser emit exactly one pair per record, in order:
    the event field and the decimal value of the delay field. *)
Theorem MainHandler_stream (ws : list wire) (tail : list ascii)
        (reads : list (list ascii)) :
  Forall well_formed ws -> ~ In "]"%char tail ->
  Forall (fun c => c <> []) reads ->
  List.concat reads = (stream_bytes ws ++ tail)%list ->
  emitted reads = Returned (map wire_pair ws).
Proof.
  intros Hws Htail Hne Hcat. unfold emitted, MainHandler.
  rewrite MainHandler_reads_concat by exact Hne. rewrite Hcat.
  destruct (scan_records ws Hws tail EmptyString EmptyString 0 [])
    as (ev' & a' & t' & H').
  unfold Locals_init. rewrite H'.
  rewrite <- (app_nil_r tail). rewrite scan_junk by exact Htail.
  reflexivity.
Qed.

(** Closed side conditions on concrete bytes. *)
Ltac bytes_differ := cbn; intuition discriminate.

Lemma example_wire_well_formed (junk : string) (ev digits : string) :
  ~ In "]"%char (list_ascii_of_string junk) ->
  tab_free ev ->
  Forall (fun c => isdigit c = true) (list_ascii_of_string digits) ->
  digits <> EmptyString ->
  decimal_value 0 digits <= INT_MAX ->
  well_formed {| w_junk := list_ascii_of_string junk; w_event := ev;
                 w_fillers := repeat "f"%string 13; w_digits := digits;
                 w_term := NL |}.
Proof.
  intros Hj He Hd Hne Hmax. split; [|split; assumption].
  split; cbn [w_junk w_event w_fillers w_digits w_term]; try assumption.
  - reflexivity.
  - apply Forall_forall. intros f Hf. apply repeat_spec in Hf. subst f.
    unfold tab_free. bytes_differ.
  - reflexivity.
Qed.

Lemma MainHandler_stream_witness :
  let w1 := {| w_junk := list_ascii_of_string "[12:30:01"; w_event := "ORDER";
               w_fillers := repeat "f"%string 13; w_digits := "57"; w_term := NL |} in
  let w2 := {| w_junk := list_ascii_of_string "[12:30:02"; w_event := "CANCEL";
               w_fillers := repeat "f"%string 13; w_digits := "2147483647";
               w_term := NL |} in
  let stream := (stream_bytes [w1; w2] ++ list_ascii_of_string "eof")%list in
  let reads := [firstn 17 stream; skipn 17 stream] in
  Forall well_formed [w1; w2] /\
  ~ In "]"%char (list_ascii_of_string "eof") /\
  Forall (fun c => c <> []) reads /\
  List.concat reads = (stream_bytes [w1; w2] ++ list_ascii_of_string "eof")%list /\
  emitted reads = Returned (map wire_pair [w1; w2]).
Proof.
  cbv zeta.
  match goal with
  | |- ?A /\ ?B /\ ?C /\ ?D /\ _ =>
      assert (HA : A);
      [| assert (HB : B);
         [| assert (HC : C);
            [| assert (HD : D);
               [| split; [exact HA|]; split; [exact HB|]; split; [exact HC|];
                  split; [exact HD|];
                  exact (MainHandler_stream _ _ _ HA HB HC HD) ]]]]
  end.
  - repeat (apply Forall_cons; [|]); [| |apply Forall_nil];
      apply example_wire_well_formed;
      try (unfold tab_free; bytes_differ);
      try (repeat (apply Forall_cons; [reflexivity|]); apply Forall_nil);
      try discriminate; vm_compute; discriminate.
  - bytes_differ.
  - repeat (apply Forall_cons; [vm_compute; discriminate|]). apply Forall_nil.
  - vm_compute. reflexivity.
Defined.

(** X17.  A framed record whose delay field is empty, or holds digits
    worth more than 2147483647, makes [stoi] throw ([invalid_argument],
    [out_of_range]); the exception leaves [MainHandler] there.  The pairs
    of the well-formed records before it have been emitted and recorded;
    nothing after it is parsed, whatever it is. *)
Theorem MainHandler_bad_record (ws : list wire) (bad : wire) (e : exn)
        (rest : list ascii) (reads : list (list ascii)) :
  Forall well_formed ws -> well_framed bad ->
  (e = invalid_argument /\ w_digits bad = EmptyString \/
   e = out_of_range /\ w_digits bad <> EmptyString /\
   INT_MAX < decimal_value 0 (w_digits bad)) ->
  Forall (fun c => c <> []) reads ->
  List.concat reads = (stream_bytes ws ++ wire_bytes bad ++ rest)%list ->
  emitted reads = Uncaught e (map wire_pair ws) /\
  forall stat : Statistic,
    MainHandler AddEventData reads stat
    = Uncaught e (replay AddEventData stat (map wire_pair ws)).
Proof.
  intros Hws Hbad He Hne Hcat.
  assert (Hstoi : stoi (w_digits bad) = inl e).
  { unfold stoi. destruct He as [[-> ->]|(-> & Hd & Hmax)]; [reflexivity|].
    destruct (w_digits bad) as [|c ds]; [contradiction|].
    destruct (Z.gtb_spec (decimal_value 0 (String c ds)) INT_MAX); [reflexivity | lia]. }
  assert (H : emitted reads = Uncaught e (map wire_pair ws)).
  { unfold emitted, MainHandler.
    rewrite MainHandler_reads_concat by exact Hne. rewrite Hcat.
    destruct (scan_records ws Hws (wire_bytes bad ++ rest) EmptyString EmptyString 0 [])
      as (ev' & a' & t' & H').
    unfold Locals_init. rewrite H'.
    rewrite scan_record by exact Hbad. rewrite Hstoi. reflexivity. }
  split; [exact H|].
  intros stat. rewrite MainHandler_emitted, H. reflexivity.
Qed.

Lemma MainHandler_bad_record_witness :
  let w1 := {| w_junk := list_ascii_of_string "[12:30:01"; w_event := "ORDER";
               w_fillers := repeat "f"%string 13; w_digits := "57"; w_term := NL |} in
  let bad := {| w_junk := list_ascii_of_string "[12:30:02"; w_event := "CANCEL";
                w_fillers := repeat "f"%string 13; w_digits := "2147483648";
                w_term := NL |} in
  let rest := wire_bytes w1 in
  let reads := [(stream_bytes [w1] ++ wire_bytes bad ++ rest)%list] in
  Forall well_formed [w1] /\ well_framed bad /\
  (out_of_range = invalid_argument /\ w_digits bad = EmptyString \/
   out_of_range = out_of_range /\ w_digits bad <> EmptyString /\
   INT_MAX < decimal_value 0 (w_digits bad)) /\
  Forall (fun c => c <> []) reads /\
  List.concat reads = (stream_bytes [w1] ++ wire_bytes bad ++ rest)%list /\
  emitted reads = Uncaught out_of_range (map wire_pair [w1]) /\
  forall stat : Statistic,
    MainHandler AddEventData reads stat
    = Uncaught out_of_range (replay AddEventData stat (map wire_pair [w1])).
Proof.
  cbv zeta.
  match goal with
  | |- ?A /\ ?B /\ ?C /\ ?D /\ ?E /\ _ =>
      assert (HA : A);
      [| assert (HB : B);
         [| assert (HC : C);
            [| assert (HD : D);
               [| assert (HE : E);
                  [| split; [exact HA|]; split; [exact HB|]; split; [exact HC|];
                     split; [exact HD|]; split; [exact HE|];
                     exact (MainHandler_bad_record _ _ _ _ _ HA HB HC HD HE) ]]]]]
  end.
  - apply Forall_cons; [|apply Forall_nil].
    apply example_wire_well_formed;
      try (unfold tab_free; bytes_differ);
      try (repeat (apply Forall_cons; [reflexivity|]); apply Forall_nil);
      try discriminate; vm_compute; discriminate.
  - split; cbn [w_junk w_event w_fillers w_digits w_term].
    + bytes_differ.
    + unfold tab_free. bytes_differ.
    + reflexivity.
    + apply Forall_forall. intros f Hf. apply repeat_spec in Hf. subst f.
      unfold tab_free. bytes_differ.
    + repeat (apply Forall_cons; [reflexivity|]). apply Forall_nil.
    + reflexivity.
  - right. split; [reflexivity|]. split; [discriminate|]. vm_compute. reflexivity.
  - apply Forall_cons; [vm_compute; discriminate | apply Forall_nil].
  - cbn [List.concat]. apply app_nil_r.
Defined.

Lemma reads_no_bracket {S : Type} (addEventData : Event -> Z -> S -> S)
      (reads : list (list ascii)) :
  Forall (fun buf => ~ In "]"%char buf) reads ->
  forall (ev a : string) (t : Z) (stat : S),
    MainHandler_reads addEventData reads (Build_Locals ev a 0 t) stat
    = Running (Build_Locals ev a 0 t) stat.
Proof.
  induction 1 as [|buf reads Hbuf _ IH]; intros ev a t stat;
    cbn [MainHandler_reads]; [reflexivity|].
  destruct buf as [|c buf]; [reflexivity|].
  rewrite <- (app_nil_r (c :: buf)). rewrite scan_junk by exact Hbuf.
  cbn [MainHandler_buf]. apply IH.
Qed.

(** X18.  Input without a closing bracket, in any reads, is discarded:
    nothing is emitted, nothing is thrown and the registry is returned as
    it was. *)
Theorem MainHandler_no_bracket (reads : list (list ascii)) :
  Forall (fun buf => ~ In "]"%char buf) reads ->
  emitted reads = Returned [] /\
  forall stat : Statistic, MainHandler AddEventData reads stat = Returned stat.
Proof.
  intros H. split.
  - unfold emitted, MainHandler, Locals_init. rewrite reads_no_bracket by exact H.
    reflexivity.
  - intros stat. unfold MainHandler, Locals_init.
    rewrite reads_no_bracket by exact H. reflexivity.
Qed.

Lemma MainHandler_no_bracket_witness :
  let reads := [list_ascii_of_string "ORDER"; [TAB; TAB; NL];
                list_ascii_of_string "[57"] in
  Forall (fun buf => ~ In "]"%char buf) reads /\
  emitted reads = Returned [] /\
  forall stat : Statistic, MainHandler AddEventData reads stat = Returned stat.
Proof.
  cbv zeta.
  assert (H : Forall (fun buf => ~ In "]"%char buf)
                     [list_ascii_of_string "ORDER"; [TAB; TAB; NL];
                      list_ascii_of_string "[57"]).
  { repeat (apply Forall_cons; [bytes_differ|]). apply Forall_nil. }
  split; [exact H|]. exact (MainHandler_no_bracket _ H).
Defined.

(** X19.  A bracket that is not followed by a tab is given up together
    with the byte after it, even when that byte is itself a bracket: if
    no further bracket follows, nothing is emitted.  So a record whose
    bracketed field ends in two brackets is dropped. *)
Theorem MainHandler_abandoned (junk : list ascii) (c : ascii) (rest : list ascii)
        (reads : list (list ascii)) :
  ~ In "]"%char junk -> c <> TAB -> ~ In "]"%char rest ->
  Forall (fun buf => buf <> []) reads ->
  List.concat reads = (junk ++ "]"%char :: c :: rest)%list ->
  emitted reads = Returned [].
Proof.
  intros Hj Hc Hr Hne Hcat. unfold emitted, MainHandler.
  rewrite MainHandler_reads_concat by exact Hne. rewrite Hcat.
  unfold Locals_init. rewrite scan_junk by exact Hj.
  cbn [MainHandler_buf]. unfold MainHandler_byte at 1 2.
  cbn [section Z.eqb Pos.eqb Ascii.eqb Bool.eqb event avgtsmr tab_counter Z.add Pos.add].
  destruct (Ascii.eqb_spec c TAB) as [E|_]; [contradiction|].
  rewrite <- (app_nil_r rest). rewrite scan_junk by exact Hr.
  reflexivity.
Qed.

Lemma MainHandler_abandoned_witness :
  let junk := list_ascii_of_string "[12:30:01" in
  let rest := (TAB :: list_ascii_of_string "ORDER"
                   ++ TAB :: filler_bytes (repeat "f"%string 13)
                   ++ list_ascii_of_string "57" ++ [NL])%list in
  let reads := [(junk ++ "]"%char :: "]"%char :: rest)%list] in
  ~ In "]"%char junk /\ "]"%char <> TAB /\ ~ In "]"%char rest /\
  Forall (fun buf => buf <> []) reads /\
  List.concat reads = (junk ++ "]"%char :: "]"%char :: rest)%list /\
  emitted reads = Returned [].
Proof.
  cbv zeta.
  match goal with
  | |- ?A /\ ?B /\ ?C /\ ?D /\ ?E /\ _ =>
      assert (HA : A);
      [| assert (HB : B);
         [| assert (HC : C);
            [| assert (HD : D);
               [| assert (HE : E);
                  [| split; [exact HA|]; split; [exact HB|]; split; [exact HC|];
                     split; [exact HD|]; split; [exact HE|];
                     exact (MainHandler_abandoned _ _ _ _ HA HB HC HD HE) ]]]]]
  end.
  - bytes_differ.
  - discriminate.
  - bytes_differ.
  - apply Forall_cons; [vm_compute; discriminate | apply Forall_nil].
  - cbn [List.concat]. apply app_nil_r.
Defined.

(** ** [UDPHandler]: the receive buffer *)

Lemma string_of_cstr_unterminated (buf : list ascii) :
  ~ In NUL buf -> string_of_cstr buf = None.
Proof.
  induction buf as [|c buf IH]; cbn [string_of_cstr]; intros Hno; [reflexivity|].
  destruct (Ascii.eqb_spec c NUL) as [->|_].
  - exfalso. apply Hno. left. reflexivity.
  - rewrite IH; [reflexivity|]. intros Hin. apply Hno. right. exact Hin.
Qed.

Lemma list_ascii_of_string_app (a b : string) :
  list_ascii_of_string (a ++ b)
  = (list_ascii_of_string a ++ list_ascii_of_string b)%list.
Proof.
  induction a as [|c a IH]; cbn [append list_ascii_of_string app]; congruence.
Qed.

Lemma length_recvfrom (buf0 payload : list ascii) (len : nat) :
  List.length buf0 = len ->
  List.length (recvfrom buf0 (Z.of_nat len) payload) = len.
Proof.
  intros Hbuf. unfold recvfrom. rewrite Nat2Z.id.
  rewrite length_app, length_skipn, length_firstn, Hbuf. lia.
Qed.

(** X20.  A datagram of 1024 bytes or more with no NUL among its first
    1024 bytes fills the whole array: after [recvfrom] the array still
    has its 1024 bytes and none of them is a NUL, so [string event(buf)]
    cannot end inside the array.  The name it builds depends on the
    memory behind [buf]; nothing the handler is given determines it. *)
Theorem UDPHandler_unterminated (buf0 : list ascii) (payload : list ascii) :
  List.length buf0 = 1024%nat ->
  (1024 <= List.length payload)%nat ->
  ~ In NUL (firstn 1024 payload) ->
  List.length (recvfrom buf0 1024 payload) = 1024%nat /\
  ~ In NUL (recvfrom buf0 1024 payload) /\
  UDPHandler_event buf0 payload = None.
Proof.
  intros Hbuf Hlen Hno.
  assert (Hrecv : recvfrom buf0 1024 payload = firstn 1024 payload).
  { unfold recvfrom. change (Z.to_nat 1024) with 1024%nat.
    rewrite length_firstn, Nat.min_l by exact Hlen.
    rewrite skipn_all2 by lia. apply app_nil_r. }
  split; [exact (length_recvfrom buf0 payload 1024 Hbuf)|].
  split; [rewrite Hrecv; exact Hno|].
  unfold UDPHandler_event. rewrite Hrecv.
  apply string_of_cstr_unterminated. exact Hno.
Qed.

Lemma UDPHandler_unterminated_witness :
  List.length (repeat NUL 1024) = 1024%nat /\
  (1024 <= List.length (repeat "a"%char 1030))%nat /\
  ~ In NUL (firstn 1024 (repeat "a"%char 1030)) /\
  List.length (recvfrom (repeat NUL 1024) 1024 (repeat "a"%char 1030)) = 1024%nat /\
  ~ In NUL (recvfrom (repeat NUL 1024) 1024 (repeat "a"%char 1030)) /\
  UDPHandler_event (repeat NUL 1024) (repeat "a"%char 1030) = None.
Proof.
  assert (HA : List.length (repeat NUL 1024) = 1024%nat) by apply repeat_length.
  assert (HB : (1024 <= List.length (repeat "a"%char 1030))%nat)
    by (rewrite repeat_length; lia).
  assert (HC : ~ In NUL (firstn 1024 (repeat "a"%char 1030))).
  { intros Hin.
    assert (Hall : In NUL (repeat "a"%char 1030)).
    { rewrite <- (firstn_skipn 1024). apply in_or_app. left. exact Hin. }
    apply repeat_spec in Hall. discriminate Hall. }
  split; [exact HA|]. split; [exact HB|]. split; [exact HC|].
  exact (UDPHandler_unterminated (repeat NUL 1024) (repeat "a"%char 1030) HA HB HC).
Defined.

(** X21.  The array has 1024 bytes.  For a datagram without a NUL that
    is shorter than the array and behind which the array holds a NUL
    somewhere, the event looked up is the payload continued by what the
    array held behind it, up to the first NUL there: the payload itself
    exactly when the array held a NUL right behind it. *)
Theorem UDPHandler_event_continued (pre : list ascii) (stale name : string)
        (post : list ascii) :
  List.length (pre ++ list_ascii_of_string stale ++ NUL :: post) = 1024%nat ->
  List.length pre = String.length name ->
  ~ In NUL (list_ascii_of_string name) ->
  ~ In NUL (list_ascii_of_string stale) ->
  UDPHandler_event (pre ++ list_ascii_of_string stale ++ NUL :: post)
                   (list_ascii_of_string name)
  = Some (name ++ stale)%string.
Proof.
  intros Hbuf Hpre Hname Hstale. unfold UDPHandler_event, recvfrom.
  change (Z.to_nat 1024) with 1024%nat.
  assert (Hlen : (String.length name < 1024)%nat).
  { rewrite !length_app in Hbuf. cbn [List.length] in Hbuf. lia. }
  rewrite firstn_all2 by (rewrite length_list_ascii_of_string; lia).
  rewrite length_list_ascii_of_string, <- Hpre.
  rewrite skipn_app, skipn_all, Nat.sub_diag. cbn [skipn app].
  rewrite app_assoc, <- list_ascii_of_string_app.
  apply string_of_cstr_terminated.
  rewrite list_ascii_of_string_app. intros Hin. apply in_app_or in Hin.
  destruct Hin; contradiction.
Qed.

Lemma UDPHandler_event_continued_witness :
  List.length (list_ascii_of_string "ORDERS" ++ list_ascii_of_string "_OLD"
                                    ++ NUL :: repeat NUL 1013) = 1024%nat /\
  List.length (list_ascii_of_string "ORDERS") = String.length "CANCEL" /\
  ~ In NUL (list_ascii_of_string "CANCEL") /\
  ~ In NUL (list_ascii_of_string "_OLD") /\
  UDPHandler_event (list_ascii_of_string "ORDERS" ++ list_ascii_of_string "_OLD"
                                         ++ NUL :: repeat NUL 1013)
                   (list_ascii_of_string "CANCEL")
  = Some ("CANCEL" ++ "_OLD")%string.
Proof.
  assert (H0 : List.length (list_ascii_of_string "ORDERS" ++ list_ascii_of_string "_OLD"
                                                 ++ NUL :: repeat NUL 1013) = 1024%nat).
  { rewrite !length_app. cbn [List.length]. rewrite repeat_length. reflexivity. }
  assert (HA : List.length (list_ascii_of_string "ORDERS") = String.length "CANCEL")
    by reflexivity.
  assert (HC : ~ In NUL (list_ascii_of_string "CANCEL")) by bytes_differ.
  assert (HD : ~ In NUL (list_ascii_of_string "_OLD")) by bytes_differ.
  split; [exact H0|]. split; [exact HA|]. split; [exact HC|]. split; [exact HD|].
  exact (UDPHandler_event_continued _ "_OLD" "CANCEL" (repeat NUL 1013) H0 HA HC HD).
Defined.

Lemma GetEventStatistic_entry (e e' : Event) (stat : Statistic) :
  keys_ascending (_events stat) ->
  entry e' (_events (fst (GetEventStatistic e stat)))
  = if String.eqb e' e then Calc (entry e (_events stat))
    else entry e' (_events stat).
Proof.
  intros Hm. unfold GetEventStatistic. cbn [fst _events].
  destruct (subscript_apply_after_AddEvent e Calc stat Hm) as [-> Hat].
  destruct (String.eqb_spec e' e) as [->|Hne].
  - unfold entry at 1. rewrite (at_key_find _ _ _ Hat). reflexivity.
  - unfold entry. rewrite find_adjust_other, find_insert_other by exact Hne.
    reflexivity.
Qed.

(** X22.  A UDP query never changes what has been recorded: whatever
    name it asks for, every event has the same buckets, the same counters
    and the same minimum and maximum afterwards as before (an event
    without entry counting as empty). *)
Theorem UDPHandler_preserves_counts (buf0 : list ascii) (request : datagram)
        (stat stat' : Statistic) (sent : list datagram) (e : Event) :
  keys_ascending (_events stat) ->
  UDPHandler buf0 request stat = Some (stat', sent) ->
  let before := entry e (_events stat) in
  let after := entry e (_events stat') in
  _histogram after = _histogram before /\
  _total_counter after = _total_counter before /\
  _below_122us_counter after = _below_122us_counter before /\
  _below_140us_counter after = _below_140us_counter before /\
  _below_145us_counter after = _below_145us_counter before /\
  _minimum after = _minimum before /\ _maximum after = _maximum before.
Proof.
  intros Hm Hudp. unfold UDPHandler in Hudp.
  destruct (UDPHandler_event buf0 (dg_payload request)) as [name|]; [|discriminate].
  pose proof (GetEventStatistic_entry name e stat Hm) as He.
  destruct (GetEventStatistic name stat) as [stat1 report].
  cbn [fst] in He. injection Hudp as <- _.
  cbv zeta. rewrite He.
  destruct (String.eqb_spec e name) as [->|_]; repeat split; reflexivity.
Qed.

Lemma UDPHandler_preserves_counts_witness :
  let stat := AddEventData "b" 7 stats_init in
  let request := {| dg_addr := {| sa_family := 2; sa_data := [] |};
                    dg_payload := list_ascii_of_string "b" |} in
  let stat' := fst (GetEventStatistic "b" stat) in
  let sent := [ {| dg_addr := dg_addr request;
                   dg_payload := list_ascii_of_string (snd (GetEventStatistic "b" stat)) |} ] in
  keys_ascending (_events stat) /\
  UDPHandler (repeat NUL 1024) request stat = Some (stat', sent) /\
  let before := entry "b" (_events stat) in
  let after := entry "b" (_events stat') in
  _histogram after = _histogram before /\
  _total_counter after = _total_counter before /\
  _below_122us_counter after = _below_122us_counter before /\
  _below_140us_counter after = _below_140us_counter before /\
  _below_145us_counter after = _below_145us_counter before /\
  _minimum after = _minimum before /\ _maximum after = _maximum before.
Proof.
  cbv zeta.
  assert (HA : keys_ascending (_events (AddEventData "b" 7 stats_init))).
  { cbn. split; [constructor | exact I]. }
  assert (HB : UDPHandler (repeat NUL 1024)
                 {| dg_addr := {| sa_family := 2; sa_data := [] |};
                    dg_payload := list_ascii_of_string "b" |}
                 (AddEventData "b" 7 stats_init)
               = Some (fst (GetEventStatistic "b" (AddEventData "b" 7 stats_init)),
                       [ {| dg_addr := {| sa_family := 2; sa_data := [] |};
                            dg_payload :=
                              list_ascii_of_string
                                (snd (GetEventStatistic "b" (AddEventData "b" 7 stats_init))) |} ])).
  { unfold UDPHandler.
    replace (UDPHandler_event (repeat NUL 1024)
               (dg_payload {| dg_addr := {| sa_family := 2; sa_data := [] |};
                              dg_payload := list_ascii_of_string "b" |}))
      with (Some "b"%string) by (vm_compute; reflexivity).
    destruct (GetEventStatistic "b" (AddEventData "b" 7 stats_init)); reflexivity. }
  split; [exact HA|]. split; [exact HB|].
  exact (UDPHandler_preserves_counts _ _ _ _ _ "b" HA HB).
Defined.
